(** * The parallel-workload orchestrator

    A shallow embedding of
    [misc/python/materialize/parallel_workload/parallel_workload.py]:
    the population construction of [run], its monitor loop, the shutdown
    and teardown phases with the error statistics, and the CLI entry
    [main].

    Python dictionaries are finite maps ([gmap]); class objects are named
    by their [__name__]; objects that are shared by reference (the
    [random.Random] instances, the workers a thread runs) are named by
    their index in a store; the clock is an integer number of ticks. *)

From Stdlib Require Import ZArith QArith Qcanon.
From stdpp Require Import base option list gmap fin_maps strings pretty numbers.

Local Open Scope string_scope.
Local Open Scope Z_scope.

(** ** Error histograms

    [Worker.ignored_errors] and the combined histogram of [run] are both a
    [defaultdict[str, Counter[type[Action]]]]: error kind, then operation
    class, then count.  A missing key of a [Counter] counts as 0 and a
    missing key of the [defaultdict] is an empty [Counter]; this is what
    the total lookup [!!!] of [gmap] computes. *)

Abbreviation Counter := (gmap string nat).
Abbreviation Histogram := (gmap string (gmap string nat)).

(** [histogram[error][action_class]] *)
Definition count_of (h : Histogram) (error action_class : string) : nat :=
  (h !!! error) !!! action_class.

(** [Counter.update(other)] for a mapping argument: an empty [self] takes
    the entries of [other] through [dict.update]; otherwise every entry
    does [self[elem] = count + self.get(elem, 0)]. *)
Definition Counter_update (self other : Counter) : Counter :=
  if decide (self = ∅)
  then map_fold (λ elem count (acc : Counter), <[elem := count]> acc) self other
  else map_fold (λ elem count (acc : Counter),
                   <[elem := (count + default 0 (acc !! elem))%nat]> acc)
                self other.

(** Lines 296-298, the body for one worker:
      [for action_class, counter in worker.ignored_errors.items():
           ignored_errors[action_class].update(counter)] *)
Definition merge_histogram (ignored_errors worker_errors : Histogram) : Histogram :=
  map_fold (λ error counter (acc : Histogram),
              <[error := Counter_update (acc !!! error) counter]> acc)
           ignored_errors worker_errors.

(** Lines 299-301: [num_failures] adds up every count of every counter. *)
Definition Counter_total (c : Counter) (start : nat) : nat :=
  map_fold (λ _ count (acc : nat), (acc + count)%nat) start c.

Definition histogram_total (h : Histogram) : nat :=
  map_fold (λ _ counter (acc : nat), Counter_total counter acc) 0%nat h.

(** [self.ignored_errors[error][type(action)] += 1] *)
Definition histogram_incr (h : Histogram) (error action_class : string) : Histogram :=
  <[error := <[action_class := S (count_of h error action_class)]> (h !!! error)]> h.

(** ** Settings *)

(** Modelled from the spec: [settings.Complexity] and [settings.Scenario]
    are imported by the source and not part of it.  The members are the
    ones [run] names; the values are the CLI spellings (the source has
    the defaults "ddl" and "regression").  The last constructor of each
    stands for any value outside the members, which [run] tests for. *)
Inductive Complexity :=
  | Read | DML | DDL
  | OtherComplexity (value : string).

Inductive Scenario :=
  | Regression | Cancel | Kill | Rename | BackupRestore
  | OtherScenario (value : string).

Definition Complexity_value (c : Complexity) : string :=
  match c with
  | Read => "read" | DML => "dml" | DDL => "ddl"
  | OtherComplexity v => v
  end.

Definition Scenario_value (s : Scenario) : string :=
  match s with
  | Regression => "regression" | Cancel => "cancel" | Kill => "kill"
  | Rename => "rename" | BackupRestore => "backup-restore"
  | OtherScenario v => v
  end.

(** [str(member)] of an [Enum] *)
Definition Complexity_str (c : Complexity) : string :=
  match c with
  | Read => "Complexity.Read" | DML => "Complexity.DML" | DDL => "Complexity.DDL"
  | OtherComplexity v => v
  end.

Definition Scenario_str (s : Scenario) : string :=
  match s with
  | Regression => "Scenario.Regression" | Cancel => "Scenario.Cancel"
  | Kill => "Scenario.Kill" | Rename => "Scenario.Rename"
  | BackupRestore => "Scenario.BackupRestore"
  | OtherScenario v => v
  end.

(** ** Actions, workers, threads *)

(** The five action lists of the catalog, in the order of the population
    handed to [worker_rng.choices] (lines 168-174). *)
Inductive Category :=
  | read_action_list | fetch_action_list | write_action_list
  | dml_nontrans_action_list | ddl_action_list.

Definition categories : list Category :=
  [read_action_list; fetch_action_list; write_action_list;
   dml_nontrans_action_list; ddl_action_list].

(** An [ActionList]: operation classes, their weights, the autocommit flag. *)
Record ActionList := {
  action_classes : list string;
  al_weights : list Z;
  al_autocommit : bool;
}.

(** A [random.Random] object in the store: the module-level generator
    seeded by [random.seed(seed)], or [random.Random(parent.randrange(..))]. *)
Inductive RandomObj :=
  | module_random (seed : string)
  | Random_seeded_by (parent : nat).

(** Operation instances.  Each carries the reference of the generator it
    was constructed with; [CancelAction] is also handed the [workers] list
    of [run] itself, [KillAction] and [BackupRestoreAction] the
    composition. *)
Inductive Action :=
  | ActionOf (action_class : string) (rng : nat)
  | CancelAction (rng : nat)
  | KillAction (rng : nat)
  | BackupRestoreAction (rng : nat).

(** [type(action).__name__] *)
Definition Action_class (a : Action) : string :=
  match a with
  | ActionOf c _ => c
  | CancelAction _ => "CancelAction"
  | KillAction _ => "KillAction"
  | BackupRestoreAction _ => "BackupRestoreAction"
  end.

Definition Action_rng (a : Action) : nat :=
  match a with
  | ActionOf _ r | CancelAction r | KillAction r | BackupRestoreAction r => r
  end.

Module Worker.
Record t := {
  rng : nat;
  actions : list Action;
  weights : list Z;
  end_time : Z;
  autocommit : bool;
  system : bool;
  num_queries : nat;
  ignored_errors : gmap string (gmap string nat);
}.

(** [Worker(rng, actions, weights, end_time, autocommit, system)] *)
Definition init (rng : nat) (actions : list Action) (weights : list Z)
    (end_time : Z) (autocommit system : bool) : t :=
  {| rng := rng; actions := actions; weights := weights;
     end_time := end_time; autocommit := autocommit; system := system;
     num_queries := 0; ignored_errors := ∅ |}.

(** [worker.end_time = v] *)
Definition set_end_time (v : Z) (w : t) : t :=
  {| rng := rng w; actions := actions w; weights := weights w;
     end_time := v; autocommit := autocommit w; system := system w;
     num_queries := num_queries w; ignored_errors := ignored_errors w |}.

(** [worker.num_queries = v] *)
Definition set_num_queries (v : nat) (w : t) : t :=
  {| rng := rng w; actions := actions w; weights := weights w;
     end_time := end_time w; autocommit := autocommit w; system := system w;
     num_queries := v; ignored_errors := ignored_errors w |}.

Definition set_ignored_errors (h : gmap string (gmap string nat)) (w : t) : t :=
  {| rng := rng w; actions := actions w; weights := weights w;
     end_time := end_time w; autocommit := autocommit w; system := system w;
     num_queries := num_queries w; ignored_errors := h |}.
End Worker.

Module Thread.
(** What a worker thread is doing: between two operations, inside the
    call of operation number [k] of its worker, returned from
    [Worker.run], or terminated by an exception. *)
Inductive state :=
  | Idle | InFlight (k : nat) | Returned | Crashed.

(** [threading.Thread(name=.., target=worker.run, args=(host, port, user,
    databases))]; [target] is the index of the worker in [workers]. *)
Record t := {
  name : string;
  target : nat;
  host : string;
  port : Z;
  user : string;
  st : state;
}.

Definition is_alive (th : t) : bool :=
  match st th with
  | Idle | InFlight _ => true
  | Returned | Crashed => false
  end.

Definition set_st (s : state) (th : t) : t :=
  {| name := name th; target := target th; host := host th;
     port := port th; user := user th; st := s |}.
End Thread.

(** ** Effects and exceptions *)

Inductive Line :=
  | Text (s : string)
  | QPS (counters : list nat)
  | Summary (num_queries : nat) (failed : Qc)
  | ErrorLine (error : string) (entries : list (string * nat)).

Inductive Effect :=
  | Print (l : Line)
  | InitializeLogging
  | Connect (host : string) (port : Z) (user : string) (database : option string)
  | Execute (statement : string)
  | DatabaseCreate (i : nat)
  | DatabaseCreateRelations (i : nat)
  | DatabaseDrop (i : nat)
  | Close
  | ThreadStart (name : string) (host : string) (port : Z) (user : string)
  | ThreadJoin (name : string).

Inductive Exn :=
  | ValueError (msg : string)
  | AssertionError (msg : string)
  | KeyError (key : string)
  | IndexError
  | Exception (msg : string)
  | KeyboardInterrupt.

(** Effects performed so far, then the exception raised or the value. *)
Definition M (A : Type) : Type := list Effect * (Exn + A).

Definition raise {A} (e : Exn) : M A := ([], inl e).
Definition emit (e : Effect) : M unit := ([e], inr tt).

#[global] Instance M_ret : MRet M := λ A a, ([], inr a).
#[global] Instance M_bind : MBind M := λ A B k m,
  match m with
  | (l, inl e) => (l, inl e)
  | (l, inr a) => let '(l', r) := k a in ((l ++ l')%list, r)
  end.

(** [for x in xs: acc = body(acc, x)] *)
Fixpoint for_each {A B} (body : B → A → M B) (acc : B) (xs : list A) : M B :=
  match xs with
  | [] => mret acc
  | x :: xs' => acc' ← body acc x; for_each body acc' xs'
  end.

(** [d[key]] *)
Definition getitem (d : gmap string Z) (key : string) : M Z :=
  match d !! key with
  | Some v => mret v
  | None => raise (KeyError key)
  end.

(** [a or b] on [int | None] *)
Definition py_or (a : option Z) (b : Z) : Z :=
  match a with
  | Some n => if n =? 0 then b else n
  | None => b
  end.

(** [range(n)] *)
Definition range (n : Z) : list nat := seq 0 (Z.to_nat n).

(** [sep.join(xs)] *)
Fixpoint join (sep : string) (xs : list string) : string :=
  match xs with
  | [] => ""
  | [x] => x
  | x :: xs' => x +:+ sep +:+ join sep xs'
  end.

Definition SEED_RANGE : Z := 1000000.
Definition REPORT_TIME : Z := 10.


(** ** The collaborators of [run]

    What the source imports and does not define: the capacity constants
    of [database], the action lists of [action], the names of a
    [Database], and [DEFAULT_SYSTEM_PARAMETERS]; and what it asks of its
    host: [os.cpu_count()], the resolution of the clock, and the outcome
    of [worker_rng.choices] for each worker slot. *)
Record Env := {
  MAX_SCHEMAS : Z;
  MAX_TABLES : Z;
  MAX_VIEWS : Z;
  MAX_WEBHOOK_SOURCES : Z;
  MAX_KAFKA_SOURCES : Z;
  MAX_POSTGRES_SOURCES : Z;
  MAX_KAFKA_SINKS : Z;
  MAX_ROLES : Z;
  MAX_CLUSTERS : Z;
  MAX_CLUSTER_REPLICAS : Z;
  DEFAULT_SYSTEM_PARAMETERS : list (string * string);
  (** the action list behind each name of [action] *)
  catalog : Category → ActionList;
  (** [database.name()] and [str(database)] of database number [i] *)
  Database_name : nat → string;
  Database_str : nat → string;
  (** [os.cpu_count()] *)
  cpu_count : option Z;
  (** clock ticks in one second *)
  hz : Z;
  (** the list drawn by [worker_rng.choices(population, weights)[0]] at
      worker slot [i] *)
  choices : nat → list Z → Category;
}.

(** The parameters of [run]; [composition] is whether a [Composition] was
    passed rather than [None]. *)
Record RunArgs := {
  host : string;
  ports : gmap string Z;
  seed : string;
  runtime : Z;
  complexity : Complexity;
  scenario : Scenario;
  num_threads : option Z;
  naughty_identifiers : bool;
  num_databases : Z;
  composition : bool;
}.

(** The local variables of [run] when the monitor loop is entered. *)
Module Population.
Record t := {
  rngs : list RandomObj;
  databases : list nat;
  workers : list Worker.t;
  threads : list Thread.t;
  end_time : Z;
}.
End Population.

(** Line 67: [num_threads or os.cpu_count() or 10] *)
Definition effective_threads (E : Env) (a : RunArgs) : Z :=
  py_or (num_threads a) (py_or (cpu_count E) 10).

(** Lines 159-166: the weights of the five categories. *)
Definition category_weights (c : Complexity) : M (list Z) :=
  match c with
  | DDL => mret [60; 30; 30; 30; 10]
  | DML => mret [60; 30; 30; 30; 0]
  | Read => mret [60; 30; 0; 0; 0]
  | OtherComplexity _ => raise (ValueError ("Unknown complexity " +:+ Complexity_str c))
  end.

(** Lines 70-72 *)
Definition banner (E : Env) (a : RunArgs) : string :=
  "--- Running with: --seed=" +:+ seed a
  +:+ " --threads=" +:+ pretty (effective_threads E a)
  +:+ " --runtime=" +:+ pretty (runtime a)
  +:+ " --complexity=" +:+ Complexity_value (complexity a)
  +:+ " --scenario=" +:+ Scenario_value (scenario a)
  +:+ " " +:+ (if naughty_identifiers a then "--naughty-identifiers " else "")
  +:+ "--databases=" +:+ pretty (num_databases a)
  +:+ " (--host=" +:+ host a +:+ ")".

Definition alter_system (name : string) (value : Z) : M unit :=
  emit (Execute ("ALTER SYSTEM SET " +:+ name +:+ " = " +:+ pretty value)).

Definition grant_default (what : string) : M unit :=
  emit (Execute ("ALTER DEFAULT PRIVILEGES FOR ALL ROLES GRANT ALL PRIVILEGES ON "
                 +:+ what +:+ " TO PUBLIC")).

(** Lines 85-152: the system connection, the capacity settings, the
    default privileges, then every database and its relations. *)
Definition bootstrap (E : Env) (a : RunArgs) (databases : list nat) : M unit :=
  let n := Z.of_nat (length databases) in
  system_port ← getitem (ports a) "mz_system";
  emit (Connect (host a) system_port "mz_system" (Some "materialize"));;
  (match databases with [] => raise IndexError | _ :: _ => mret tt end);;
  emit (Execute "ALTER SYSTEM SET enable_webhook_sources TO true");;
  alter_system "max_schemas_per_database" (MAX_SCHEMAS E * 2);;
  alter_system "max_tables" (n * MAX_TABLES E * 2);;
  alter_system "max_materialized_views" (n * MAX_VIEWS E * 2);;
  alter_system "max_sources"
    (n * (MAX_WEBHOOK_SOURCES E + MAX_KAFKA_SOURCES E + MAX_POSTGRES_SOURCES E) * 2);;
  alter_system "max_sinks" (n * MAX_KAFKA_SINKS E * 2);;
  alter_system "max_roles" (n * MAX_ROLES E * 2);;
  alter_system "max_clusters" (n * MAX_CLUSTERS E * 2);;
  alter_system "max_replicas_per_cluster" (MAX_CLUSTER_REPLICAS E * 2);;
  grant_default "TABLES";;
  grant_default "TYPES";;
  grant_default "SECRETS";;
  grant_default "CONNECTIONS";;
  grant_default "DATABASES";;
  grant_default "SCHEMAS";;
  grant_default "CLUSTERS";;
  for_each (λ _ database,
      emit (DatabaseCreate database);;
      port ← getitem (ports a) "materialized";
      emit (Connect (host a) port "materialize" (Some (Database_name E database)));;
      emit (DatabaseCreateRelations database);;
      emit Close)
    tt databases;;
  emit Close.

(** Lines 157-200, the body of the loop for worker slot [i]. *)
Definition worker_slot (E : Env) (a : RunArgs) (worker_rng : nat) (end_time : Z)
    (acc : list Worker.t * list Thread.t) (i : nat)
    : M (list Worker.t * list Thread.t) :=
  weights ← category_weights (complexity a);
  let action_list := catalog E (choices E i weights) in
  let actions := (λ action_class, ActionOf action_class worker_rng)
                   <$> action_classes action_list in
  let worker := Worker.init worker_rng actions (al_weights action_list)
                  end_time (al_autocommit action_list) false in
  let thread_name := "worker_" +:+ pretty i in
  emit (Print (Text (thread_name +:+ ": " +:+ join ", " (action_classes action_list))));;
  let workers := (acc.1 ++ [worker])%list in
  port ← getitem (ports a) "materialized";
  let thread := {| Thread.name := thread_name; Thread.target := length acc.1;
                   Thread.host := host a; Thread.port := port;
                   Thread.user := "materialize"; Thread.st := Thread.Idle |} in
  emit (ThreadStart thread_name (host a) port "materialize");;
  mret (workers, (acc.2 ++ [thread])%list).

(** One arm of lines 202-254: build the scenario worker, append it, start
    its thread and append that. *)
Definition scenario_worker (a : RunArgs) (worker_rng : nat) (action : Action)
    (end_time : Z) (system : bool) (thread_name port_key user : string)
    (acc : list Worker.t * list Thread.t) : M (list Worker.t * list Thread.t) :=
  let worker := Worker.init worker_rng [action] [1] end_time false system in
  let workers := (acc.1 ++ [worker])%list in
  port ← getitem (ports a) port_key;
  let thread := {| Thread.name := thread_name; Thread.target := length acc.1;
                   Thread.host := host a; Thread.port := port;
                   Thread.user := user; Thread.st := Thread.Idle |} in
  emit (ThreadStart thread_name (host a) port user);;
  mret (workers, (acc.2 ++ [thread])%list).

(** Lines 202-258 *)
Definition scenario_dispatch (a : RunArgs) (worker_rng : nat) (end_time : Z)
    (acc : list Worker.t * list Thread.t) : M (list Worker.t * list Thread.t) :=
  match scenario a with
  | Cancel =>
      scenario_worker a worker_rng (CancelAction worker_rng) end_time true
        "cancel" "mz_system" "mz_system" acc
  | Kill =>
      (if composition a then mret tt
       else raise (AssertionError "Kill scenario only works in mzcompose"));;
      scenario_worker a worker_rng (KillAction worker_rng) end_time false
        "kill" "materialized" "materialize" acc
  | BackupRestore =>
      (if composition a then mret tt
       else raise (AssertionError "Backup & Restore scenario only works in mzcompose"));;
      scenario_worker a worker_rng (BackupRestoreAction worker_rng) end_time false
        "kill" "materialized" "materialize" acc
  | Regression | Rename => mret acc
  | OtherScenario _ =>
      raise (ValueError ("Unknown scenario " +:+ Scenario_str (scenario a)))
  end.

(** Lines 67-258 of [run]: everything before the monitor loop.  [now] is
    the reading of [datetime.datetime.now()] on line 76. *)
Definition populate (E : Env) (a : RunArgs) (now : Z) : M Population.t :=
  let module_rng := 0%nat in
  emit (Print (Text (banner E a)));;
  emit InitializeLogging;;
  let end_time := now + runtime a * hz E in
  let rng := 1%nat in
  let databases := range (num_databases a) in
  bootstrap E a databases;;
  let worker_rng := 2%nat in
  let rngs := [module_random (seed a); Random_seeded_by module_rng;
               Random_seeded_by rng] in
  acc ← for_each (worker_slot E a worker_rng end_time) ([], [])
          (range (effective_threads E a));
  acc ← scenario_dispatch a worker_rng end_time acc;
  mret {| Population.rngs := rngs; Population.databases := databases;
          Population.workers := acc.1; Population.threads := acc.2;
          Population.end_time := end_time |}.

(** ** The monitor loop, shutdown and teardown

    Lines 260-311 run while the worker threads run.  The interleaving is
    explicit: the environment schedules clock changes, steps of the main
    thread, a keyboard interrupt, and the beginning and the end of an
    operation of a worker thread. *)

(** Where the main thread stands: at the test of the [while] (line 262),
    at the liveness scan (263-267), inside [time.sleep] (268) until the
    clock reaches [wake], at the joins (283-284), returned, or left by an
    exception. *)
Inductive Pc :=
  | PcTest | PcScan | PcSleep (wake : Z) | PcJoin | PcReturned
  | PcRaised (e : Exn).

(** How an operation ends for the worker that ran it. *)
Inductive Outcome :=
  | Success | IgnoredError (error : string) | UnexpectedError.

Inductive Event :=
  | Tick (t : Z)
  | MainStep
  | Interrupt
  | WorkerBegin (i k : nat)
  | WorkerEnd (i : nat) (o : Outcome).

Module Run.
Record t := {
  now : Z;
  end_time : Z;
  databases : list nat;
  workers : list Worker.t;
  threads : list Thread.t;
  num_queries : nat;
  pc : Pc;
  effects : list Effect;
}.

Definition set_now (v : Z) (s : t) : t :=
  {| now := v; end_time := end_time s; databases := databases s;
     workers := workers s; threads := threads s;
     num_queries := num_queries s; pc := pc s; effects := effects s |}.

Definition set_workers (v : list Worker.t) (s : t) : t :=
  {| now := now s; end_time := end_time s; databases := databases s;
     workers := v; threads := threads s;
     num_queries := num_queries s; pc := pc s; effects := effects s |}.

Definition set_threads (v : list Thread.t) (s : t) : t :=
  {| now := now s; end_time := end_time s; databases := databases s;
     workers := workers s; threads := v;
     num_queries := num_queries s; pc := pc s; effects := effects s |}.

Definition set_num_queries (v : nat) (s : t) : t :=
  {| now := now s; end_time := end_time s; databases := databases s;
     workers := workers s; threads := threads s;
     num_queries := v; pc := pc s; effects := effects s |}.

Definition set_pc (v : Pc) (s : t) : t :=
  {| now := now s; end_time := end_time s; databases := databases s;
     workers := workers s; threads := threads s;
     num_queries := num_queries s; pc := v; effects := effects s |}.

Definition add_effects (l : list Effect) (s : t) : t :=
  {| now := now s; end_time := end_time s; databases := databases s;
     workers := workers s; threads := threads s;
     num_queries := num_queries s; pc := pc s;
     effects := (effects s ++ l)%list |}.

(** Line 260, after [populate] left its effects [l]. *)
Definition start (l : list Effect) (p : Population.t) (now : Z) : t :=
  {| now := now; end_time := Population.end_time p;
     databases := Population.databases p;
     workers := Population.workers p; threads := Population.threads p;
     num_queries := 0; pc := PcTest; effects := l |}.
End Run.

(** Modelled from the spec: [Worker.run] ([worker.py] is not part of the
    source).  Section 4.2: the deadline is checked only at the top of an
    iteration, where one operation is drawn from the assigned set ([k] is
    the index drawn); a call in flight is never preempted. *)
Definition worker_begin (i k : nat) (s : Run.t) : Run.t :=
  match Run.threads s !! i with
  | Some th =>
      match Thread.st th, Run.workers s !! Thread.target th with
      | Thread.Idle, Some w =>
          if Run.now s <? Worker.end_time w
          then
            if decide (k < length (Worker.actions w))%nat
            then Run.set_threads
                   (<[i := Thread.set_st (Thread.InFlight k) th]> (Run.threads s)) s
            else s
          else Run.set_threads
                 (<[i := Thread.set_st Thread.Returned th]> (Run.threads s)) s
      | _, _ => s
      end
  | None => s
  end.

(** The operation thread [i] is inside of: the thread, the worker it
    runs and the operation instance. *)
Definition in_flight (i : nat) (s : Run.t) : option (Thread.t * Worker.t * Action) :=
  th ← Run.threads s !! i;
  match Thread.st th with
  | Thread.InFlight k =>
      w ← Run.workers s !! Thread.target th;
      action ← Worker.actions w !! k;
      Some (th, w, action)
  | _ => None
  end.

(** Modelled from the spec: [Worker.run], the end of an operation.
    Section 4.2: on success the live counter is incremented; a recognised
    error increments the histogram at (error kind, operation class); an
    unrecognised error terminates the thread. *)
Definition worker_end (i : nat) (o : Outcome) (s : Run.t) : Run.t :=
  match in_flight i s with
  | Some (th, w, action) =>
      let idle := <[i := Thread.set_st Thread.Idle th]> (Run.threads s) in
      match o with
      | Success =>
          Run.set_threads idle
            (Run.set_workers
               (<[Thread.target th :=
                    Worker.set_num_queries (S (Worker.num_queries w)) w]>
                  (Run.workers s)) s)
      | IgnoredError error =>
          Run.set_threads idle
            (Run.set_workers
               (<[Thread.target th :=
                    Worker.set_ignored_errors
                      (histogram_incr (Worker.ignored_errors w) error
                         (Action_class action)) w]>
                  (Run.workers s)) s)
      | UnexpectedError =>
          Run.set_threads
            (<[i := Thread.set_st Thread.Crashed th]> (Run.threads s)) s
      end
  | None => s
  end.

(** Lines 265-266 and 280-281:
      [for worker in workers: worker.end_time = time.time()] *)
Definition force_deadlines (s : Run.t) : Run.t :=
  Run.set_workers (Worker.set_end_time (Run.now s) <$> Run.workers s) s.

(** Lines 275-277:
      [for worker in workers:
           num_queries += worker.num_queries; worker.num_queries = 0] *)
Definition collect (s : Run.t) : Run.t :=
  Run.set_workers (Worker.set_num_queries 0 <$> Run.workers s)
    (Run.set_num_queries
       (foldl (λ n w, (n + Worker.num_queries w)%nat) (Run.num_queries s)
              (Run.workers s)) s).

(** Lines 294-298 *)
Definition aggregate (workers : list Worker.t) : Histogram :=
  foldl (λ ignored_errors w, merge_histogram ignored_errors (Worker.ignored_errors w))
        ∅ workers.

(** Line 303 *)
Definition failed_percentage (num_failures num_queries : nat) : Qc :=
  match num_queries with
  | O => 0%Qc
  | S _ => (Qc_of_Z 100 * Qc_of_Z (Z.of_nat num_failures)
            / Qc_of_Z (Z.of_nat num_queries))%Qc
  end.

(** Lines 286-311.  The order in which the error lines come out is that
    of [map_to_list], not the insertion order of the dictionaries. *)
Definition teardown (E : Env) (a : RunArgs) (s : Run.t) : M unit :=
  port ← getitem (ports a) "materialized";
  emit (Connect (host a) port "materialize" None);;
  for_each (λ _ database,
      emit (Print (Text ("Dropping database " +:+ Database_str E database)));;
      emit (DatabaseDrop database))
    tt (Run.databases s);;
  emit Close;;
  let ignored_errors := aggregate (Run.workers s) in
  let num_failures := histogram_total ignored_errors in
  let failed := failed_percentage num_failures (Run.num_queries s) in
  emit (Print (Summary (Run.num_queries s) failed));;
  emit (Print (Text "Error statistics:"));;
  for_each (λ _ entry,
      emit (Print (ErrorLine entry.1 (map_to_list entry.2))))
    tt (map_to_list ignored_errors).

(** Whether every [thread.join()] of lines 283-284 can return. *)
Definition all_ended (threads : list Thread.t) : bool :=
  forallb (λ th, negb (Thread.is_alive th)) threads.

(** The first thread of [threads] that is not alive. *)
Definition first_dead (threads : list Thread.t) : option Thread.t :=
  find (λ th, negb (Thread.is_alive th)) threads.

(** One step of the main thread. *)
Definition main_step (E : Env) (a : RunArgs) (s : Run.t) : Run.t :=
  match Run.pc s with
  | PcTest =>
      if Run.now s <? Run.end_time s
      then Run.set_pc PcScan s
      else Run.set_pc PcJoin s
  | PcScan =>
      match first_dead (Run.threads s) with
      | Some thread =>
          Run.set_pc
            (PcRaised (Exception ("Thread " +:+ Thread.name thread +:+ " failed, exiting")))
            (force_deadlines s)
      | None => Run.set_pc (PcSleep (Run.now s + REPORT_TIME * hz E)) s
      end
  | PcSleep wake =>
      if wake <=? Run.now s
      then Run.set_pc PcTest
             (collect
                (Run.add_effects
                   [Print (QPS (Worker.num_queries <$> Run.workers s))] s))
      else s
  | PcJoin =>
      if all_ended (Run.threads s)
      then
        let s := Run.add_effects (ThreadJoin ∘ Thread.name <$> Run.threads s) s in
        match teardown E a s with
        | (l, inr _) => Run.set_pc PcReturned (Run.add_effects l s)
        | (l, inl e) => Run.set_pc (PcRaised e) (Run.add_effects l s)
        end
      else s
  | PcReturned | PcRaised _ => s
  end.

(** [KeyboardInterrupt] reaching the main thread: inside the [try] it is
    caught by lines 278-281; at the joins it leaves [run]. *)
Definition interrupt (s : Run.t) : Run.t :=
  match Run.pc s with
  | PcTest | PcScan | PcSleep _ =>
      Run.set_pc PcJoin
        (force_deadlines
           (Run.add_effects [Print (Text "Keyboard interrupt, exiting")] s))
  | PcJoin => Run.set_pc (PcRaised KeyboardInterrupt) s
  | PcReturned | PcRaised _ => s
  end.

Definition step (E : Env) (a : RunArgs) (s : Run.t) (ev : Event) : Run.t :=
  match ev with
  | Tick t => Run.set_now t s
  | MainStep => main_step E a s
  | Interrupt => interrupt s
  | WorkerBegin i k => worker_begin i k s
  | WorkerEnd i o => worker_end i o s
  end.

Definition exec (E : Env) (a : RunArgs) (s : Run.t) (evs : list Event) : Run.t :=
  foldl (step E a) s evs.

(** [run], under the schedule [evs]: the effects and the exception of the
    construction, or the state the schedule leads to. *)
Definition run (E : Env) (a : RunArgs) (now : Z) (evs : list Event)
    : list Effect * (Exn + Run.t) :=
  match populate E a now with
  | (l, inl e) => (l, inl e)
  | (l, inr p) =>
      let s := exec E a (Run.start l p now) evs in
      (Run.effects s, inr s)
  end.

(** ** The command line *)

(** The namespace [parser.parse_args()] returns: lines 354-357 and
    [parse_common_args]. *)
Module Args.
Record t := {
  host : string;
  port : Z;
  system_port : Z;
  http_port : Z;
  seed : string;
  runtime : Z;
  complexity : string;
  scenario : string;
  threads : option Z;
  naughty_identifiers : bool;
  databases : Z;
}.
End Args.

(** [Complexity(value)] and [Scenario(value)]: the member with that value,
    or [ValueError]. *)
Definition Complexity_of_value (v : string) : M Complexity :=
  match find (λ c, bool_decide (Complexity_value c = v)) [Read; DML; DDL] with
  | Some c => mret c
  | None => raise (ValueError ("'" +:+ v +:+ "' is not a valid Complexity"))
  end.

Definition Scenario_of_value (v : string) : M Scenario :=
  match find (λ c, bool_decide (Scenario_value c = v))
             [Regression; Cancel; Kill; Rename; BackupRestore] with
  | Some c => mret c
  | None => raise (ValueError ("'" +:+ v +:+ "' is not a valid Scenario"))
  end.

(** Lines 362-368 *)
Definition main_ports : gmap string Z :=
  <["materialized" := 6875]> (<["mz_system" := 6877]> (<["http" := 6876]>
    (<["kafka" := 9092]> (<["schema-registry" := 8081]> ∅)))).

(** Lines 347-396.  The result is [None] while [run] has not come back
    under the schedule, and the return value of [main] after. *)
Definition main (E : Env) (args : Args.t) (now : Z) (evs : list Event)
    : M (option Z) :=
  let ports := main_ports in
  system_port ← getitem ports "mz_system";
  emit (Connect (Args.host args) system_port "mz_system" (Some "materialize"));;
  for_each (λ _ kv,
      emit (Execute ("ALTER SYSTEM SET " +:+ kv.1 +:+ " = '" +:+ kv.2 +:+ "'")))
    tt (DEFAULT_SYSTEM_PARAMETERS E);;
  emit Close;;
  complexity ← Complexity_of_value (Args.complexity args);
  scenario ← Scenario_of_value (Args.scenario args);
  s ← run E {| host := Args.host args; ports := ports; seed := Args.seed args;
               runtime := Args.runtime args; complexity := complexity;
               scenario := scenario; num_threads := Args.threads args;
               naughty_identifiers := Args.naughty_identifiers args;
               num_databases := Args.databases args; composition := false |}
         now evs;
  match Run.pc s with
  | PcReturned => mret (Some 0)
  | PcRaised e => raise e
  | _ => mret None
  end.

(** ** What a run did and what it printed *)







(** The sum of all counts of the histograms of the workers. *)
Definition recorded (workers : list Worker.t) : nat :=
  sum_list_with (λ w, histogram_total (Worker.ignored_errors w)) workers.

(** The "Queries executed" lines among the effects. *)
Definition summaries (l : list Effect) : list (nat * Qc) :=
  omap (λ e, match e with Print (Summary n f) => Some (n, f) | _ => None end) l.

(** The names of the threads started, and of those joined. *)
Definition thread_starts (l : list Effect) : list string :=
  omap (λ e, match e with ThreadStart name _ _ _ => Some name | _ => None end) l.

Definition thread_joins (l : list Effect) : list string :=
  omap (λ e, match e with ThreadJoin name => Some name | _ => None end) l.

(** The ports of the connections opened and of the threads started. *)
Definition ports_used (l : list Effect) : list Z :=
  omap (λ e, match e with
             | Connect _ port _ _ | ThreadStart _ _ port _ => Some port
             | _ => None
             end) l.

(** The deadline of each worker. *)
Definition deadlines (s : Run.t) : list Z :=
  Worker.end_time <$> Run.workers s.

(** [sum(weights)] for a complexity, when it has weights. *)
Definition weights_total (c : Complexity) : option Z :=
  match category_weights c with
  | (_, inr weights) => Some (foldr Z.add 0 weights)
  | (_, inl _) => None
  end.

(** The weight of [ddl_action_list], the last of the five. *)
Definition ddl_weight (c : Complexity) : option Z :=
  match category_weights c with
  | (_, inr weights) => weights !! 4%nat
  | (_, inl _) => None
  end.

(** ** A small installation

    One class per action list, two databases, a clock that ticks once a
    second, and a generator that always draws the read list. *)
Definition sample_catalog (c : Category) : ActionList :=
  match c with
  | read_action_list =>
      {| action_classes := ["SelectAction"]; al_weights := [100];
         al_autocommit := false |}
  | fetch_action_list =>
      {| action_classes := ["FetchAction"]; al_weights := [100];
         al_autocommit := false |}
  | write_action_list =>
      {| action_classes := ["InsertAction"; "DeleteAction"]; al_weights := [50; 50];
         al_autocommit := false |}
  | dml_nontrans_action_list =>
      {| action_classes := ["UpdateAction"]; al_weights := [100];
         al_autocommit := true |}
  | ddl_action_list =>
      {| action_classes := ["CreateTableAction"]; al_weights := [100];
         al_autocommit := true |}
  end.

Definition sample_env : Env :=
  {| MAX_SCHEMAS := 5; MAX_TABLES := 5; MAX_VIEWS := 15; MAX_WEBHOOK_SOURCES := 5;
     MAX_KAFKA_SOURCES := 5; MAX_POSTGRES_SOURCES := 5; MAX_KAFKA_SINKS := 5;
     MAX_ROLES := 15; MAX_CLUSTERS := 10; MAX_CLUSTER_REPLICAS := 4;
     DEFAULT_SYSTEM_PARAMETERS := [];
     catalog := sample_catalog;
     Database_name := λ i, "db" +:+ pretty i;
     Database_str := λ i, "db" +:+ pretty i;
     cpu_count := Some 4; hz := 1;
     choices := λ _ _, read_action_list |}.

(** [run] for [threads] workers and 5 seconds under [scenario]. *)
Definition sample_run (threads : Z) (scenario : Scenario) : RunArgs :=
  {| host := "localhost"; ports := main_ports; seed := "1"; runtime := 5;
     complexity := DDL; scenario := scenario; num_threads := Some threads;
     naughty_identifiers := false; num_databases := 2; composition := true |}.

(** The command line with the three port flags given. *)
Definition sample_args (port system_port http_port : Z) : Args.t :=
  {| Args.host := "localhost"; Args.port := port;
     Args.system_port := system_port; Args.http_port := http_port;
     Args.seed := "1"; Args.runtime := 5; Args.complexity := "ddl";
     Args.scenario := "regression"; Args.threads := Some 1;
     Args.naughty_identifiers := false; Args.databases := 2 |}.

(** ** Invariants of the monitor *)

(** Until [run] returns nothing of the summary is printed; once it has
    returned, the one summary line shows the [num_queries] of the main
    thread and the percentage of line 303, and every thread has ended. *)
Definition summary_inv (s : Run.t) : Prop :=
  match Run.pc s with
  | PcReturned =>
      summaries (Run.effects s)
      = [(Run.num_queries s,
          failed_percentage (histogram_total (aggregate (Run.workers s)))
                            (Run.num_queries s))]
      ∧ all_ended (Run.threads s) = true
  | _ => summaries (Run.effects s) = []
  end.

(** A worker as [Worker(...)] leaves it, when it was handed the generator
    [worker_rng] and the deadline [end_time]: its operations hold the
    same generator, nothing is counted yet. *)
Definition constructed (worker_rng : nat) (end_time : Z) (w : Worker.t) : Prop :=
  Worker.rng w = worker_rng
  ∧ Forall (λ action, Action_rng action = worker_rng) (Worker.actions w)
  ∧ Worker.end_time w = end_time
  ∧ Worker.num_queries w = 0%nat
  ∧ Worker.ignored_errors w = ∅.

(** The thread line 194 or one of the scenario arms creates. *)
Definition new_thread (a : RunArgs) (name : string) (target : nat) (port : Z)
    (user : string) : Thread.t :=
  {| Thread.name := name; Thread.target := target; Thread.host := host a;
     Thread.port := port; Thread.user := user; Thread.st := Thread.Idle |}.

(** ** What the main thread did to the databases, connections and threads *)

(** The databases created, those whose relations were created, and those
    dropped, in the order of the effects. *)
Definition databases_created (l : list Effect) : list nat :=
  omap (λ e, match e with DatabaseCreate i => Some i | _ => None end) l.

Definition relations_created (l : list Effect) : list nat :=
  omap (λ e, match e with DatabaseCreateRelations i => Some i | _ => None end) l.

Definition databases_dropped (l : list Effect) : list nat :=
  omap (λ e, match e with DatabaseDrop i => Some i | _ => None end) l.

(** The number of [pg8000.connect] calls and of [close] calls. *)
Definition connections_opened (l : list Effect) : nat :=
  length (omap (λ e, match e with Connect _ _ _ _ => Some e | _ => None end) l).

Definition connections_closed (l : list Effect) : nat :=
  length (omap (λ e, match e with Close => Some e | _ => None end) l).

(** Everything but the printing. *)
Definition actions (l : list Effect) : list Effect :=
  omap (λ e, match e with Print _ => None | _ => Some e end) l.

(** Lines 180-200 and the scenario arms keep [workers] and [threads] in
    step: thread number [i] runs worker number [i], which holds the
    deadline [end_time]; a system worker is run as [mz_system] on the
    [mz_system] port, any other as [materialize] on the [materialized]
    port. *)
Definition paired (a : RunArgs) (end_time : Z)
    (acc : list Worker.t * list Thread.t) : Prop :=
  length acc.1 = length acc.2
  ∧ ∀ i th, acc.2 !! i = Some th →
      Thread.target th = i
      ∧ Thread.host th = host a
      ∧ ∃ w, acc.1 !! i = Some w
          ∧ Worker.end_time w = end_time
          ∧ Thread.user th = (if Worker.system w then "mz_system" else "materialize")
          ∧ ports a !! (if Worker.system w then "mz_system" else "materialized")
            = Some (Thread.port th).

(** What the main thread has done since the construction left the
    effects [l0]: nothing but printing while it monitors or waits at the
    joins; when [run] has returned, the joins of all threads in their
    order, one connection, the drop of every database in order, and the
    close of that connection; when [run] was left by an exception,
    nothing but printing, or no more than the joins. *)
Definition monitor_inv (a : RunArgs) (l0 : list Effect) (s : Run.t) : Prop :=
  ∃ l1,
    Run.effects s = (l0 ++ l1)%list
    ∧ match Run.pc s with
      | PcReturned =>
          ∃ port,
            ports a !! "materialized" = Some port
            ∧ actions l1
              = ((ThreadJoin <$> (Thread.name <$> Run.threads s))
                 ++ Connect (host a) port "materialize" None
                 :: (DatabaseDrop <$> Run.databases s) ++ [Close])%list
      | PcRaised _ =>
          actions l1 = []
          ∨ actions l1 = ThreadJoin <$> (Thread.name <$> Run.threads s)
      | _ => actions l1 = []
      end.

(** * Properties *)

(** ** Histograms *)

Section Histograms.
Implicit Types (self other : gmap string nat).
Implicit Types (h agg : gmap string (gmap string nat)).

Lemma Counter_update_lookup self other (k : string) :
  Counter_update self other !!! k = ((self !!! k) + (other !!! k))%nat.
Proof.
  unfold Counter_update. destruct (decide (self = ∅)) as [->|_]; revert k.
  - apply (map_fold_weak_ind (λ (r m : gmap string nat),
             ∀ k, r !!! k = (((∅ : gmap string nat) !!! k) + (m !!! k))%nat)).
    + done.
    + intros i x m r Hi IH k. rewrite !lookup_total_alt in *.
      destruct (decide (i = k)) as [->|Hne].
      * by rewrite !lookup_insert_eq, lookup_empty.
      * rewrite !lookup_insert_ne by done. apply IH.
  - apply (map_fold_weak_ind (λ (r m : gmap string nat),
             ∀ k, r !!! k = ((self !!! k) + (m !!! k))%nat)).
    + intros k. rewrite lookup_total_empty. simpl. lia.
    + intros i x m r Hi IH k. specialize (IH k).
      rewrite !lookup_total_alt in *.
      destruct (decide (i = k)) as [->|Hne].
      * rewrite !lookup_insert_eq. rewrite Hi in IH. simpl in *. lia.
      * by rewrite !lookup_insert_ne.
Qed.

Lemma count_of_empty (error action_class : string) :
  count_of ∅ error action_class = 0%nat.
Proof. unfold count_of. by rewrite lookup_total_empty. Qed.

Lemma merge_histogram_count agg h (error action_class : string) :
  count_of (merge_histogram agg h) error action_class
  = (count_of agg error action_class + count_of h error action_class)%nat.
Proof.
  unfold merge_histogram. revert error action_class.
  apply (map_fold_weak_ind (λ (r m : gmap string (gmap string nat)),
           ∀ e c, count_of r e c = (count_of agg e c + count_of m e c)%nat)).
  - intros e c. rewrite count_of_empty. lia.
  - intros i x m r Hi IH e c. unfold count_of in *.
    destruct (decide (i = e)) as [->|Hne].
    + rewrite !lookup_total_insert_eq, Counter_update_lookup, IH.
      rewrite (lookup_total_alt m e), Hi. simpl.
      rewrite lookup_total_empty. change (@inhabitant nat _) with 0%nat. lia.
    + rewrite !lookup_total_insert_ne by done. apply IH.
Qed.

Lemma foldl_merge_count (ws : list Worker.t) agg (error action_class : string) :
  count_of (foldl (λ acc w, merge_histogram acc (Worker.ignored_errors w)) agg ws)
           error action_class
  = (count_of agg error action_class
     + sum_list_with (λ w, count_of (Worker.ignored_errors w) error action_class) ws)%nat.
Proof.
  revert agg. induction ws as [|w ws IH]; intros agg; simpl.
  - lia.
  - rewrite IH, merge_histogram_count. lia.
Qed.

End Histograms.

(** C2.  Whatever the workers and their histograms, the combined
    histogram built at teardown holds at every (error kind, operation
    class) the sum of the counts the workers hold there: nothing is
    counted twice and nothing is lost. *)
Theorem aggregate_exact_sum (workers : list Worker.t) (error action_class : string) :
  count_of (aggregate workers) error action_class
  = sum_list_with (λ w, count_of (Worker.ignored_errors w) error action_class) workers.
Proof.
  unfold aggregate. rewrite foldl_merge_count, count_of_empty. lia.
Qed.

(** ** Totals of histograms *)

Section Totals.
Implicit Types (self other : gmap string nat).
Implicit Types (h agg : gmap string (gmap string nat)).

Lemma Counter_total_empty (start : nat) : Counter_total ∅ start = start.
Proof. unfold Counter_total. by rewrite map_fold_empty. Qed.

Lemma Counter_total_start (c : gmap string nat) (start : nat) :
  Counter_total c start = (start + Counter_total c 0)%nat.
Proof.
  induction c as [|k v c Hk Hfirst IH] using map_first_key_ind.
  - rewrite !Counter_total_empty. lia.
  - unfold Counter_total in *.
    rewrite !map_fold_insert_first_key by done. lia.
Qed.

Lemma Counter_total_insert_None (c : gmap string nat) (k : string) (v : nat) :
  c !! k = None →
  Counter_total (<[k := v]> c) 0 = (Counter_total c 0 + v)%nat.
Proof.
  intros Hk. unfold Counter_total.
  rewrite map_fold_insert_L; [done| |done].
  intros; lia.
Qed.

Lemma Counter_total_insert (c : gmap string nat) (k : string) (v : nat) :
  (Counter_total (<[k := v]> c) 0 + c !!! k)%nat = (Counter_total c 0 + v)%nat.
Proof.
  rewrite lookup_total_alt. destruct (c !! k) as [x|] eqn:Hk; simpl.
  - rewrite <- (insert_delete_eq c k v).
    rewrite Counter_total_insert_None by apply lookup_delete_eq.
    rewrite <- (insert_delete_id c k x) at 2 by done.
    rewrite Counter_total_insert_None by apply lookup_delete_eq. lia.
  - rewrite Counter_total_insert_None by done. lia.
Qed.

Lemma Counter_update_total self other :
  Counter_total (Counter_update self other) 0
  = (Counter_total self 0 + Counter_total other 0)%nat.
Proof.
  unfold Counter_update. destruct (decide (self = ∅)) as [->|_].
  - rewrite Counter_total_empty. simpl. f_equal.
    apply (map_fold_weak_ind (λ (r m : gmap string nat), r = m)); [done|].
    by intros i x m r _ ->.
  - apply (map_fold_weak_ind (λ (r m : gmap string nat),
             Counter_total r 0 = (Counter_total self 0 + Counter_total m 0)%nat)).
    + rewrite Counter_total_empty. lia.
    + intros i x m r Hi IH.
      pose proof (Counter_total_insert r i (x + default 0 (r !! i))%nat) as Hr.
      rewrite lookup_total_alt in Hr.
      change (@inhabitant nat _) with 0%nat in Hr.
      rewrite (Counter_total_insert_None m) by done. lia.
Qed.

Lemma histogram_total_empty : histogram_total ∅ = 0%nat.
Proof. unfold histogram_total. by rewrite map_fold_empty. Qed.

Lemma histogram_total_insert_None h (e : string) (c : gmap string nat) :
  h !! e = None →
  histogram_total (<[e := c]> h) = (histogram_total h + Counter_total c 0)%nat.
Proof.
  intros He. unfold histogram_total.
  rewrite map_fold_insert_L; [apply Counter_total_start| |done].
  intros j1 j2 z1 z2 y _ _ _.
  rewrite (Counter_total_start z1 (Counter_total z2 y)),
    (Counter_total_start z2 (Counter_total z1 y)),
    (Counter_total_start z2 y), (Counter_total_start z1 y). lia.
Qed.

Lemma histogram_total_insert h (e : string) (c : gmap string nat) :
  (histogram_total (<[e := c]> h) + Counter_total (h !!! e) 0)%nat
  = (histogram_total h + Counter_total c 0)%nat.
Proof.
  rewrite lookup_total_alt. destruct (h !! e) as [x|] eqn:He; simpl.
  - rewrite <- (insert_delete_eq h e c).
    rewrite histogram_total_insert_None by apply lookup_delete_eq.
    rewrite <- (insert_delete_id h e x) at 2 by done.
    rewrite histogram_total_insert_None by apply lookup_delete_eq. lia.
  - rewrite histogram_total_insert_None by done.
    change (@inhabitant (gmap string nat) _) with (∅ : gmap string nat).
    rewrite Counter_total_empty. lia.
Qed.

Lemma merge_histogram_total agg h :
  histogram_total (merge_histogram agg h)
  = (histogram_total agg + histogram_total h)%nat.
Proof.
  unfold merge_histogram.
  apply (map_fold_weak_ind (λ (r m : gmap string (gmap string nat)),
           histogram_total r = (histogram_total agg + histogram_total m)%nat)).
  - rewrite histogram_total_empty. lia.
  - intros i x m r Hi IH.
    pose proof (histogram_total_insert r i (Counter_update (r !!! i) x)) as Hr.
    rewrite Counter_update_total in Hr.
    rewrite (histogram_total_insert_None m) by done. lia.
Qed.


Lemma aggregate_total (ws : list Worker.t) :
  histogram_total (aggregate ws) = recorded ws.
Proof.
  unfold aggregate, recorded.
  enough (∀ agg,
    histogram_total
      (foldl (λ acc w, merge_histogram acc (Worker.ignored_errors w)) agg ws)
    = (histogram_total agg
       + sum_list_with (λ w, histogram_total (Worker.ignored_errors w)) ws)%nat) as H.
  { rewrite H, histogram_total_empty. lia. }
  induction ws as [|w ws IH]; intros agg; simpl.
  - lia.
  - rewrite IH, merge_histogram_total. lia.
Qed.

End Totals.

(** ** The effect monad *)

Lemma bind_inr {A B} (m : M A) (k : A → M B) (l : list Effect) (b : B) :
  m ≫= k = (l, inr b) →
  ∃ l1 a l2, m = (l1, inr a) ∧ k a = (l2, inr b) ∧ l = (l1 ++ l2)%list.
Proof.
  unfold mbind, M_bind. destruct m as [l1 [e|a]]; [done|].
  destruct (k a) as [l2 r] eqn:Hk. intros [= <- ->]. eauto 6.
Qed.

Lemma bind_inl {A B} (m : M A) (k : A → M B) (l : list Effect) (e : Exn) :
  m ≫= k = (l, inl e) →
  m = (l, inl e)
  ∨ ∃ l1 a l2, m = (l1, inr a) ∧ k a = (l2, inl e) ∧ l = (l1 ++ l2)%list.
Proof.
  unfold mbind, M_bind. destruct m as [l1 [e'|a]].
  - intros [= <- <-]. by left.
  - destruct (k a) as [l2 r] eqn:Hk. intros [= <- ->]. right. eauto 6.
Qed.

Lemma bind_ok {A B} (m : M A) (k : A → M B) (l1 : list Effect) (a : A) :
  m = (l1, inr a) → m ≫= k = ((l1 ++ (k a).1)%list, (k a).2).
Proof. intros ->. unfold mbind, M_bind. by destruct (k a). Qed.

Lemma bind_effects {A B} (P : Effect → Prop) (m : M A) (k : A → M B) :
  Forall P m.1 → (∀ a, Forall P (k a).1) → Forall P (m ≫= k).1.
Proof.
  intros Hm Hk. unfold mbind, M_bind. destruct m as [l1 [e|a]]; [done|].
  specialize (Hk a). destruct (k a) as [l2 r]. simpl in *.
  by apply Forall_app.
Qed.

Lemma for_each_effects {A B} (P : Effect → Prop) (body : B → A → M B) (xs : list A) :
  (∀ acc x, Forall P (body acc x).1) →
  ∀ acc, Forall P (for_each body acc xs).1.
Proof.
  intros Hbody. induction xs as [|x xs IH]; intros acc; simpl.
  - constructor.
  - apply bind_effects; [apply Hbody|apply IH].
Qed.

Lemma getitem_effects (P : Effect → Prop) (d : gmap string Z) (key : string) :
  Forall P (getitem d key).1.
Proof. unfold getitem. destruct (d !! key); constructor. Qed.

(** The observers of the effects distribute over concatenation, and see
    nothing in a list where they see nothing in any single effect. *)
Lemma summaries_app (l1 l2 : list Effect) :
  summaries (l1 ++ l2) = (summaries l1 ++ summaries l2)%list.
Proof. apply omap_app. Qed.

Lemma thread_starts_app (l1 l2 : list Effect) :
  thread_starts (l1 ++ l2) = (thread_starts l1 ++ thread_starts l2)%list.
Proof. apply omap_app. Qed.

Lemma thread_joins_app (l1 l2 : list Effect) :
  thread_joins (l1 ++ l2) = (thread_joins l1 ++ thread_joins l2)%list.
Proof. apply omap_app. Qed.

Lemma summaries_none (l : list Effect) :
  Forall (λ e, summaries [e] = []) l → summaries l = [].
Proof.
  induction 1 as [|e l He _ IH]; [done|].
  change (e :: l) with ([e] ++ l)%list. by rewrite summaries_app, He, IH.
Qed.

Lemma thread_starts_none (l : list Effect) :
  Forall (λ e, thread_starts [e] = []) l → thread_starts l = [].
Proof.
  induction 1 as [|e l He _ IH]; [done|].
  change (e :: l) with ([e] ++ l)%list. by rewrite thread_starts_app, He, IH.
Qed.

Lemma thread_joins_none (l : list Effect) :
  Forall (λ e, thread_joins [e] = []) l → thread_joins l = [].
Proof.
  induction 1 as [|e l He _ IH]; [done|].
  change (e :: l) with ([e] ++ l)%list. by rewrite thread_joins_app, He, IH.
Qed.

(** Break a computation into its binds; what is left are single effects
    and case distinctions. *)
Ltac effects_step :=
  lazymatch goal with
  | |- Forall _ (fst (mbind _ _)) => apply bind_effects; [|intros]
  | |- Forall _ (fst (for_each _ _ _)) => apply for_each_effects; intros
  | |- Forall _ (fst (getitem _ _)) => apply getitem_effects
  | |- Forall _ (fst (emit _)) => apply Forall_singleton
  | |- Forall _ (fst (mret _)) => apply Forall_nil_2
  | |- Forall _ (fst (raise _)) => apply Forall_nil_2
  end.

Lemma bootstrap_effects (P : Effect → Prop) E a dbs :
  (∀ h p u d, P (Connect h p u d)) → (∀ st, P (Execute st)) →
  (∀ i, P (DatabaseCreate i)) → (∀ i, P (DatabaseCreateRelations i)) → P Close →
  Forall P (bootstrap E a dbs).1.
Proof.
  intros HC HE HD HR HCl. unfold bootstrap, alter_system, grant_default.
  repeat effects_step; try done.
  destruct dbs; effects_step.
Qed.

(** ** Population construction *)

Lemma worker_slot_effects (P : Effect → Prop) E a r et acc i :
  (∀ t, P (Print (Text t))) → (∀ n h p u, P (ThreadStart n h p u)) →
  Forall P (worker_slot E a r et acc i).1.
Proof.
  intros HP HT. unfold worker_slot, category_weights.
  destruct (complexity a); repeat effects_step; done.
Qed.

Lemma scenario_dispatch_effects (P : Effect → Prop) a r et acc :
  (∀ n h p u, P (ThreadStart n h p u)) →
  Forall P (scenario_dispatch a r et acc).1.
Proof.
  intros HT. unfold scenario_dispatch, scenario_worker.
  destruct (scenario a), (composition a); repeat effects_step; done.
Qed.

Lemma populate_effects (P : Effect → Prop) E a now :
  (∀ t, P (Print (Text t))) → P InitializeLogging →
  (∀ h p u d, P (Connect h p u d)) → (∀ st, P (Execute st)) →
  (∀ i, P (DatabaseCreate i)) → (∀ i, P (DatabaseCreateRelations i)) → P Close →
  (∀ n h p u, P (ThreadStart n h p u)) →
  Forall P (populate E a now).1.
Proof.
  intros. unfold populate.
  repeat first
    [ apply bootstrap_effects
    | apply worker_slot_effects
    | apply scenario_dispatch_effects
    | effects_step ]; done.
Qed.

Lemma populate_summaries E a now : summaries (populate E a now).1 = [].
Proof. apply summaries_none, populate_effects; done. Qed.

Lemma populate_joins E a now : thread_joins (populate E a now).1 = [].
Proof. apply thread_joins_none, populate_effects; done. Qed.

Lemma bootstrap_starts E a dbs : thread_starts (bootstrap E a dbs).1 = [].
Proof. apply thread_starts_none, bootstrap_effects; done. Qed.

Lemma worker_slot_inr E a r et acc i l acc' :
  worker_slot E a r et acc i = (l, inr acc') →
  ∃ w port,
    acc' = ((acc.1 ++ [w])%list,
            (acc.2 ++ [new_thread a ("worker_" +:+ pretty i) (length acc.1)
                         port "materialize"])%list)
    ∧ ports a !! "materialized" = Some port
    ∧ thread_starts l = ["worker_" +:+ pretty i]
    ∧ constructed r et w ∧ Worker.system w = false.
Proof.
  unfold worker_slot, category_weights, getitem.
  destruct (complexity a); simpl;
    (destruct (ports a !! "materialized") as [port|] eqn:Hp; simpl; [|done]);
    try done;
    intros [= <- <-]; eexists _, port;
    (split; [reflexivity|]); (split; [done|]); (split; [done|]);
    (split; [|done]); unfold constructed; simpl;
    (split; [done|]); (split; [|done]);
    apply Forall_fmap, Forall_true; done.
Qed.

Lemma worker_loop_inr E a r et xs : ∀ acc l acc',
  for_each (worker_slot E a r et) acc xs = (l, inr acc') →
  ∃ ws ths,
    acc' = ((acc.1 ++ ws)%list, (acc.2 ++ ths)%list)
    ∧ length ws = length xs
    ∧ Forall (constructed r et) ws
    ∧ Forall (λ w, Worker.system w = false) ws
    ∧ thread_starts l = Thread.name <$> ths
    ∧ Thread.name <$> ths = (λ i, "worker_" +:+ pretty i) <$> xs
    ∧ Forall (λ th, Thread.st th = Thread.Idle) ths.
Proof.
  induction xs as [|x xs IH]; intros acc l acc'; simpl.
  - intros [= <- <-]. exists [], []. rewrite !app_nil_r.
    destruct acc; repeat split; constructor.
  - intros (l1 & acc1 & l2 & H1 & H2 & ->)%bind_inr.
    apply worker_slot_inr in H1 as (w & port & -> & Hp & Hs & Hw & Hsys).
    apply IH in H2 as (ws & ths & -> & Hlen & Hws & Hsyss & Hst & Hn & Hidle).
    simpl. eexists (w :: ws), (_ :: ths). rewrite <- !app_assoc. simpl.
    split; [reflexivity|]. repeat split.
    + by rewrite Hlen.
    + by constructor.
    + by constructor.
    + by rewrite thread_starts_app, Hs, Hst.
    + f_equal. apply Hn.
    + by constructor.
Qed.



Lemma scenario_worker_inr a r action et system name key user acc l acc' :
  scenario_worker a r action et system name key user acc = (l, inr acc') →
  ∃ port,
    ports a !! key = Some port
    ∧ acc' = ((acc.1 ++ [Worker.init r [action] [1] et false system])%list,
              (acc.2 ++ [new_thread a name (length acc.1) port user])%list)
    ∧ l = [ThreadStart name (host a) port user].
Proof.
  unfold scenario_worker, getitem.
  destruct (ports a !! key) as [port|]; simpl; [|done].
  intros [= <- <-]. by exists port.
Qed.

(** What the scenario arms of lines 202-258 add to the population. *)
Lemma scenario_dispatch_inr a r et acc l acc' :
  scenario_dispatch a r et acc = (l, inr acc') →
  match scenario a with
  | Cancel =>
      ∃ port, ports a !! "mz_system" = Some port
        ∧ acc' = ((acc.1 ++ [Worker.init r [CancelAction r] [1] et false true])%list,
                  (acc.2 ++ [new_thread a "cancel" (length acc.1) port "mz_system"])%list)
        ∧ l = [ThreadStart "cancel" (host a) port "mz_system"]
  | Kill =>
      ∃ port, ports a !! "materialized" = Some port
        ∧ acc' = ((acc.1 ++ [Worker.init r [KillAction r] [1] et false false])%list,
                  (acc.2 ++ [new_thread a "kill" (length acc.1) port "materialize"])%list)
        ∧ l = [ThreadStart "kill" (host a) port "materialize"]
        ∧ composition a = true
  | BackupRestore =>
      ∃ port, ports a !! "materialized" = Some port
        ∧ acc' = ((acc.1 ++ [Worker.init r [BackupRestoreAction r] [1] et false false])%list,
                  (acc.2 ++ [new_thread a "kill" (length acc.1) port "materialize"])%list)
        ∧ l = [ThreadStart "kill" (host a) port "materialize"]
        ∧ composition a = true
  | Regression | Rename => acc' = acc ∧ l = []
  | OtherScenario _ => False
  end.
Proof.
  unfold scenario_dispatch. destruct (scenario a); try done.
  - by intros [= <- <-].
  - intros (port & ? & ? & ?)%scenario_worker_inr. by exists port.
  - destruct (composition a); [|done].
    intros (l1 & [] & l2 & [= <-] & (port & ? & ? & ->)%scenario_worker_inr & ->)%bind_inr.
    by exists port.
  - by intros [= <- <-].
  - destruct (composition a); [|done].
    intros (l1 & [] & l2 & [= <-] & (port & ? & ? & ->)%scenario_worker_inr & ->)%bind_inr.
    by exists port.
Qed.

Lemma for_each_ok {A B} (body : B → A → M B) (xs : list A) :
  (∀ acc x, ∃ l acc', body acc x = (l, inr acc')) →
  ∀ acc, ∃ l acc', for_each body acc xs = (l, inr acc').
Proof.
  intros Hbody. induction xs as [|x xs IH]; intros acc; simpl.
  - by eexists _, _.
  - destruct (Hbody acc x) as (l1 & acc1 & H1).
    destruct (IH acc1) as (l2 & acc2 & H2).
    rewrite (bind_ok _ _ _ _ H1), H2. by eexists _, _.
Qed.


(** What lines 67-258 leave behind when they come through. *)
Lemma populate_inr E a now l p :
  populate E a now = (l, inr p) →
  ∃ lb l1 l2 acc,
    bootstrap E a (range (num_databases a)) = (lb, inr tt)
    ∧ for_each (worker_slot E a 2 (now + runtime a * hz E)) ([], [])
        (range (effective_threads E a)) = (l1, inr acc)
    ∧ scenario_dispatch a 2 (now + runtime a * hz E) acc
      = (l2, inr (Population.workers p, Population.threads p))
    ∧ l = (Print (Text (banner E a)) :: InitializeLogging :: lb ++ l1 ++ l2)%list
    ∧ Population.end_time p = now + runtime a * hz E
    ∧ Population.databases p = range (num_databases a)
    ∧ Population.rngs p
      = [module_random (seed a); Random_seeded_by 0; Random_seeded_by 1].
Proof.
  unfold populate.
  intros (? & [] & ? & [= <-] & H & ->)%bind_inr.
  apply bind_inr in H as (? & [] & ? & [= <-] & H & ->).
  apply bind_inr in H as (lb & [] & ? & Hb & H & ->).
  apply bind_inr in H as (l1 & acc & ? & H1 & H & ->).
  apply bind_inr in H as (l2 & acc2 & ? & H2 & [= <- <-] & ->).
  exists lb, l1, l2, acc. simpl. rewrite app_nil_r.
  destruct acc2. by repeat split.
Qed.


(** ** Category weights *)

(** C5, as stated, fails: the weights of the full tier add up to 160 and
    those of the reduced tier to 150. *)
Lemma weights_total_differs : weights_total DDL ≠ weights_total DML.
Proof. vm_compute. discriminate. Qed.

(** C5, amended.  The weight vectors of the three tiers are
    [60,30,30,30,10], [60,30,30,30,0] and [60,30,0,0,0]: five weights
    each, adding up to 160, 150 and 90, and the weight of the
    schema-change list is zero for the reduced and the read-only tier. *)
Theorem category_weights_by_tier :
  category_weights DDL = mret [60; 30; 30; 30; 10]
  ∧ category_weights DML = mret [60; 30; 30; 30; 0]
  ∧ category_weights Read = mret [60; 30; 0; 0; 0]
  ∧ weights_total DDL = Some 160
  ∧ weights_total DML = Some 150
  ∧ weights_total Read = Some 90
  ∧ ddl_weight DML = Some 0
  ∧ ddl_weight Read = Some 0.
Proof. repeat split. Qed.

(** ** Random generators *)

(** C6, as stated, fails: with two worker slots both workers hold the
    generator at reference 2, and so does each of their operations. *)
Lemma workers_share_generator :
  match (populate sample_env (sample_run 2 Regression) 0).2 with
  | inr p =>
      Worker.rng <$> Population.workers p = [2; 2]%nat
      ∧ (λ w, Action_rng <$> Worker.actions w) <$> Population.workers p
        = [[2]; [2]]%nat
  | inl _ => False
  end.
Proof. vm_compute. done. Qed.

(** C6, amended.  Every worker of the population, the scenario worker
    included, and every one of their operation instances is handed the
    one generator [worker_rng]; it is created once, seeded by a draw
    from [rng], which is seeded by a draw from the module generator that
    [random.seed(seed)] has set. *)
Theorem one_generator_for_all_workers E a now l p :
  populate E a now = (l, inr p) →
  Population.rngs p !! 0%nat = Some (module_random (seed a))
  ∧ Population.rngs p !! 1%nat = Some (Random_seeded_by 0)
  ∧ Population.rngs p !! 2%nat = Some (Random_seeded_by 1)
  ∧ Forall (λ w, Worker.rng w = 2%nat
                 ∧ Forall (λ action, Action_rng action = 2%nat) (Worker.actions w))
           (Population.workers p).
Proof.
  intros (lb & l1 & l2 & acc & _ & Hloop & Hd & _ & _ & _ & ->)%populate_inr.
  repeat (split; [done|]).
  apply worker_loop_inr in Hloop as (ws & ths & -> & _ & Hws & _).
  assert (Forall (λ w, Worker.rng w = 2%nat
                 ∧ Forall (λ action, Action_rng action = 2%nat) (Worker.actions w))
                 ws) as Hbase.
  { eapply Forall_impl; [|exact Hws]. by intros w (? & ? & _). }
  apply scenario_dispatch_inr in Hd. simpl in Hd.
  destruct (scenario a); try done.
  - by destruct Hd as [[= <- _] _].
  - destruct Hd as (port & _ & [= -> _] & _).
    apply Forall_app. split; [done|]. repeat constructor.
  - destruct Hd as (port & _ & [= -> _] & _).
    apply Forall_app. split; [done|]. repeat constructor.
  - by destruct Hd as [[= <- _] _].
  - destruct Hd as (port & _ & [= -> _] & _).
    apply Forall_app. split; [done|]. repeat constructor.
Qed.

Lemma one_generator_for_all_workers_witness :
  ∃ l p,
    populate sample_env (sample_run 2 Cancel) 0 = (l, inr p)
    ∧ Forall (λ w, Worker.rng w = 2%nat
                   ∧ Forall (λ action, Action_rng action = 2%nat) (Worker.actions w))
             (Population.workers p).
Proof.
  destruct (populate sample_env (sample_run 2 Cancel) 0) as [l [e|p]] eqn:H.
  - exfalso. vm_compute in H. discriminate.
  - exists l, p. split; [reflexivity|].
    apply (one_generator_for_all_workers _ _ _ _ _ H).
Defined.

(** ** Scenario workers *)





(** ** Unrecognised scenarios *)




(** ** The monitor: what a step leaves alone *)

Lemma worker_begin_main i k s :
  Run.pc (worker_begin i k s) = Run.pc s
  ∧ Run.effects (worker_begin i k s) = Run.effects s
  ∧ Run.workers (worker_begin i k s) = Run.workers s
  ∧ Run.num_queries (worker_begin i k s) = Run.num_queries s.
Proof.
  unfold worker_begin. repeat case_match; done.
Qed.

Lemma worker_end_main i o s :
  Run.pc (worker_end i o s) = Run.pc s
  ∧ Run.effects (worker_end i o s) = Run.effects s
  ∧ Run.num_queries (worker_end i o s) = Run.num_queries s.
Proof.
  unfold worker_end.
  destruct (in_flight i s) as [[[th w] action]|]; [|done].
  by destruct o.
Qed.

Lemma in_flight_Some i s th w action :
  in_flight i s = Some (th, w, action) →
  Run.threads s !! i = Some th
  ∧ Run.workers s !! Thread.target th = Some w
  ∧ Thread.is_alive th = true.
Proof.
  unfold in_flight, Thread.is_alive.
  destruct (Run.threads s !! i) as [th'|]; simpl; [|done].
  destruct (Thread.st th') eqn:Hst; try done.
  destruct (Run.workers s !! Thread.target th') as [w'|] eqn:Hw; simpl; [|done].
  destruct (Worker.actions w' !! k); simpl; [|done].
  intros [= <- <- <-]. by rewrite Hst, Hw.
Qed.

(** Once [run] is left by an exception the main thread does nothing
    more, whatever is scheduled. *)
Lemma step_raised E a s ev e :
  Run.pc s = PcRaised e →
  Run.pc (step E a s ev) = PcRaised e
  ∧ Run.effects (step E a s ev) = Run.effects s.
Proof.
  intros Hpc. destruct ev; simpl.
  - done.
  - unfold main_step. by rewrite Hpc.
  - unfold interrupt. by rewrite Hpc.
  - destruct (worker_begin_main i k s) as (-> & -> & _). done.
  - destruct (worker_end_main i o s) as (-> & -> & _). done.
Qed.

Lemma exec_raised E a evs : ∀ s e,
  Run.pc s = PcRaised e →
  Run.pc (exec E a s evs) = PcRaised e
  ∧ Run.effects (exec E a s evs) = Run.effects s.
Proof.
  induction evs as [|ev evs IH]; intros s e Hpc; simpl; [done|].
  destruct (step_raised E a s ev e Hpc) as [Hpc' Heff].
  destruct (IH _ _ Hpc') as [-> ->]. done.
Qed.

Lemma first_dead_Some (threads : list Thread.t) (th : Thread.t) :
  th ∈ threads → Thread.is_alive th = false →
  ∃ th', first_dead threads = Some th'
         ∧ th' ∈ threads ∧ Thread.is_alive th' = false.
Proof.
  intros Hin Hdead. unfold first_dead.
  destruct (find (λ th, negb (Thread.is_alive th)) threads) as [th'|] eqn:Hf.
  - apply find_some in Hf as [Hin' Hd']. exists th'.
    split; [done|]. split; [by apply list_elem_of_In|].
    by destruct (Thread.is_alive th').
  - apply list_elem_of_In in Hin.
    pose proof (find_none _ _ Hf th Hin) as Hn. simpl in Hn.
    by rewrite Hdead in Hn.
Qed.

Lemma force_deadlines_deadlines s :
  deadlines (force_deadlines s) = replicate (length (Run.workers s)) (Run.now s).
Proof.
  unfold deadlines, force_deadlines. simpl.
  induction (Run.workers s) as [|w ws IH]; [done|].
  rewrite !fmap_cons. simpl. f_equal. apply IH.
Qed.

(** C8.  When the liveness scan of the monitor finds a thread that is no
    longer alive, the deadline of every worker is set to the current
    time and [run] is left by the exception that names the thread; the
    main thread performs no effect then or later, so nothing is joined,
    no database is dropped and no summary is printed. *)
Theorem dead_thread_aborts E a s th :
  Run.pc s = PcScan →
  th ∈ Run.threads s →
  Thread.is_alive th = false →
  ∃ th',
    th' ∈ Run.threads s ∧ Thread.is_alive th' = false
    ∧ Run.pc (main_step E a s)
      = PcRaised (Exception ("Thread " +:+ Thread.name th' +:+ " failed, exiting"))
    ∧ deadlines (main_step E a s)
      = replicate (length (Run.workers s)) (Run.now s)
    ∧ Run.effects (main_step E a s) = Run.effects s
    ∧ ∀ evs,
        Run.pc (exec E a (main_step E a s) evs) = Run.pc (main_step E a s)
        ∧ Run.effects (exec E a (main_step E a s) evs) = Run.effects s.
Proof.
  intros Hpc Hin Hdead.
  destruct (first_dead_Some _ _ Hin Hdead) as (th' & Hf & Hin' & Hdead').
  exists th'. split; [done|]. split; [done|].
  assert (main_step E a s
          = Run.set_pc
              (PcRaised (Exception ("Thread " +:+ Thread.name th' +:+ " failed, exiting")))
              (force_deadlines s)) as ->.
  { unfold main_step. by rewrite Hpc, Hf. }
  split; [done|]. split; [apply force_deadlines_deadlines|]. split; [done|].
  intros evs.
  by destruct (exec_raised E a evs
    (Run.set_pc
       (PcRaised (Exception ("Thread " +:+ Thread.name th' +:+ " failed, exiting")))
       (force_deadlines s)) _ eq_refl) as [-> ->].
Qed.

Lemma dead_thread_aborts_witness :
  ∃ l s,
    run sample_env (sample_run 1 Regression) 0
        [MainStep; WorkerBegin 0 0; WorkerEnd 0 UnexpectedError] = (l, inr s)
    ∧ Run.pc (main_step sample_env (sample_run 1 Regression) s)
      = PcRaised (Exception "Thread worker_0 failed, exiting")
    ∧ deadlines (main_step sample_env (sample_run 1 Regression) s) = [0]
    ∧ deadlines s = [5].
Proof.
  destruct (run sample_env (sample_run 1 Regression) 0
              [MainStep; WorkerBegin 0 0; WorkerEnd 0 UnexpectedError])
    as [l [e|s]] eqn:H.
  - exfalso. vm_compute in H. discriminate.
  - exists l, s. split; [reflexivity|].
    vm_compute in H. injection H as _ <-.
    match goal with
    | |- context [main_step _ _ ?s0] =>
        destruct (dead_thread_aborts sample_env (sample_run 1 Regression) s0
                    (Thread.set_st Thread.Crashed
                       (new_thread (sample_run 1 Regression) "worker_0" 0 6875
                          "materialize")))
          as (th' & Hin & _ & Hpc & Hd & _)
    end.
    + reflexivity.
    + vm_compute. constructor.
    + reflexivity.
    + apply list_elem_of_singleton in Hin. subst th'.
      split; [exact Hpc|]. split; [exact Hd|]. reflexivity.
Defined.

(** ** Deadlines *)

Lemma lookup_set_end_time (ws : list Worker.t) (v : Z) (i : nat) (w' : Worker.t) :
  (Worker.set_end_time v <$> ws) !! i = Some w' →
  ∃ w, ws !! i = Some w ∧ Worker.end_time w' = v.
Proof.
  rewrite list_lookup_fmap. destruct (ws !! i) as [w|]; [|done].
  intros [= <-]. by exists w.
Qed.

(** A step writes to a deadline the current time or not at all. *)
Lemma step_deadline E a s ev i w' :
  Run.workers (step E a s ev) !! i = Some w' →
  ∃ w, Run.workers s !! i = Some w
       ∧ (Worker.end_time w' = Worker.end_time w
          ∨ Worker.end_time w' = Run.now s).
Proof.
  destruct ev as [t| | |j k|j o]; simpl.
  - intros H. exists w'. by split; [|left].
  - unfold main_step. destruct (Run.pc s) eqn:Hpc.
    + destruct (Run.now s <? Run.end_time s); intros H;
        exists w'; by split; [|left].
    + destruct (first_dead (Run.threads s)).
      * simpl. intros (w & ? & ?)%lookup_set_end_time. exists w. by split; [|right].
      * intros H. exists w'. by split; [|left].
    + destruct (wake <=? Run.now s); simpl.
      * rewrite list_lookup_fmap.
        destruct (Run.workers s !! i) as [w|]; [|done].
        intros [= <-]. exists w. by split; [|left].
      * intros H. exists w'. by split; [|left].
    + destruct (all_ended (Run.threads s)).
      * destruct (teardown E a _) as [l [e|[]]]; simpl;
          intros H; exists w'; by split; [|left].
      * intros H. exists w'. by split; [|left].
    + intros H. exists w'. by split; [|left].
    + intros H. exists w'. by split; [|left].
  - unfold interrupt. destruct (Run.pc s); simpl;
      try (intros (w & ? & ?)%lookup_set_end_time; exists w; by split; [|right]);
      intros H; exists w'; by split; [|left].
  - destruct (worker_begin_main j k s) as (_ & _ & -> & _).
    intros H. exists w'. by split; [|left].
  - unfold worker_end.
    destruct (in_flight j s) as [[[th w] action]|] eqn:Hf;
      [|intros H; exists w'; by split; [|left]].
    apply in_flight_Some in Hf as (_ & Hw & _).
    destruct o; simpl;
      try (intros H; exists w'; by split; [|left]).
    + destruct (decide (Thread.target th = i)) as [<-|Hne].
      * rewrite list_lookup_insert_eq by (by eapply lookup_lt_Some).
        intros [= <-]. exists w. by split; [|left].
      * rewrite list_lookup_insert_ne by done.
        intros H. exists w'. by split; [|left].
    + destruct (decide (Thread.target th = i)) as [<-|Hne].
      * rewrite list_lookup_insert_eq by (by eapply lookup_lt_Some).
        intros [= <-]. exists w. by split; [|left].
      * rewrite list_lookup_insert_ne by done.
        intros H. exists w'. by split; [|left].
Qed.

(** C3, as stated, fails: a run of 5 seconds is interrupted at second 7,
    during the sleep of the monitor; the deadline of the worker, 5
    before the interrupt, is 7 after it. *)
Lemma interrupt_moves_deadline_later :
  match (run sample_env (sample_run 1 Regression) 0
           [MainStep; MainStep; Tick 7]).2,
        (run sample_env (sample_run 1 Regression) 0
           [MainStep; MainStep; Tick 7; Interrupt]).2 with
  | inr before, inr after => deadlines before = [5] ∧ deadlines after = [7]
  | _, _ => False
  end.
Proof. vm_compute. done. Qed.

(** C3, amended.  Whatever step is taken, the deadline of a worker after
    it is its deadline before it or the current time: a write assigns the
    current time.  So the deadline never moves beyond the later of its
    old value and the current time, and it does not move later as long
    as the old deadline has not passed. *)
Theorem deadline_write_is_now E a s ev i w w' :
  Run.workers s !! i = Some w →
  Run.workers (step E a s ev) !! i = Some w' →
  (Worker.end_time w' = Worker.end_time w ∨ Worker.end_time w' = Run.now s)
  ∧ Worker.end_time w' ≤ Z.max (Worker.end_time w) (Run.now s)
  ∧ (Run.now s ≤ Worker.end_time w → Worker.end_time w' ≤ Worker.end_time w).
Proof.
  intros Hw (w0 & Hw0 & Hcase)%step_deadline.
  rewrite Hw in Hw0. injection Hw0 as <-.
  split; [done|]. split; lia.
Qed.

Lemma deadline_write_is_now_witness :
  ∃ l s w w',
    run sample_env (sample_run 1 Regression) 0 [MainStep; MainStep; Tick 3]
    = (l, inr s)
    ∧ Run.workers s !! 0%nat = Some w
    ∧ Run.workers (step sample_env (sample_run 1 Regression) s Interrupt) !! 0%nat
      = Some w'
    ∧ Worker.end_time w = 5 ∧ Worker.end_time w' = 3
    ∧ Worker.end_time w' ≤ Worker.end_time w.
Proof.
  destruct (run sample_env (sample_run 1 Regression) 0 [MainStep; MainStep; Tick 3])
    as [l [e|s]] eqn:H.
  - exfalso. vm_compute in H. discriminate.
  - exists l, s.
    destruct (Run.workers s !! 0%nat) as [w|] eqn:Hw.
    2: { exfalso. vm_compute in H. injection H as _ <-.
         vm_compute in Hw. discriminate. }
    destruct (Run.workers (step sample_env (sample_run 1 Regression) s Interrupt)
                !! 0%nat) as [w'|] eqn:Hw'.
    2: { exfalso. vm_compute in H. injection H as _ <-.
         vm_compute in Hw'. discriminate. }
    exists w, w'. split; [reflexivity|]. split; [reflexivity|].
    split; [reflexivity|].
    pose proof (deadline_write_is_now _ _ _ _ _ _ _ Hw Hw') as (_ & _ & Hle).
    vm_compute in H. injection H as _ <-.
    vm_compute in Hw. injection Hw as <-.
    vm_compute in Hw'. injection Hw' as <-.
    split; [reflexivity|]. split; [reflexivity|].
    apply Hle. vm_compute. discriminate.
Defined.

(** ** Counting *)







(** ** The summary *)

(** Teardown prints one summary line, with the [num_queries] of the
    main thread and the percentage of line 303, unless the port lookup
    of line 286 fails. *)
Lemma teardown_summaries E a s l r :
  teardown E a s = (l, r) →
  match r with
  | inr _ =>
      summaries l
      = [(Run.num_queries s,
          failed_percentage (histogram_total (aggregate (Run.workers s)))
                            (Run.num_queries s))]
  | inl _ => summaries l = []
  end.
Proof.
  unfold teardown.
  match goal with
  | |- context [for_each ?body ?acc0 ?xs] =>
      assert (∃ l acc', for_each body acc0 xs = (l, inr acc'))
        as (ld & [] & Hd) by (apply for_each_ok; intros [] x; by eexists _, _);
      pose proof (for_each_effects (λ e, summaries [e] = []) body xs
                    (λ _ _, ltac:(by repeat constructor)) acc0) as Hqd;
      rewrite Hd in Hqd; rewrite Hd
  end.
  match goal with
  | |- context [for_each ?body ?acc0 ?xs] =>
      assert (∃ l acc', for_each body acc0 xs = (l, inr acc'))
        as (le & [] & He) by (apply for_each_ok; intros [] x; by eexists _, _);
      pose proof (for_each_effects (λ e, summaries [e] = []) body xs
                    (λ _ _, ltac:(by repeat constructor)) acc0) as Hqe;
      rewrite He in Hqe; rewrite He
  end.
  apply summaries_none in Hqd, Hqe. simpl in Hqd, Hqe.
  unfold getitem. destruct (ports a !! "materialized"); simpl.
  - intros [= <- <-]. simpl.
    rewrite summaries_app, Hqe. unfold summaries in *. simpl. f_equal. exact Hqd.
  - by intros [= <- <-].
Qed.

Lemma summaries_joins (ths : list Thread.t) :
  summaries (ThreadJoin ∘ Thread.name <$> ths) = [].
Proof.
  apply summaries_none. induction ths as [|th ths IH]; [constructor|].
  rewrite fmap_cons. by constructor.
Qed.

Lemma ended_thread (threads : list Thread.t) (i : nat) (th : Thread.t) :
  all_ended threads = true → threads !! i = Some th →
  Thread.is_alive th = false.
Proof.
  unfold all_ended. rewrite forallb_forall. intros Hall Hi.
  assert (In th threads) as Hin
    by (apply list_elem_of_In; eapply list_elem_of_lookup_2; exact Hi).
  specialize (Hall th Hin). by destruct (Thread.is_alive th).
Qed.

(** A thread that has ended takes no further step. *)
Lemma ended_worker_begin i k s :
  all_ended (Run.threads s) = true → worker_begin i k s = s.
Proof.
  intros Hall. unfold worker_begin.
  destruct (Run.threads s !! i) as [th|] eqn:Hi; [|done].
  pose proof (ended_thread _ _ _ Hall Hi) as Hd.
  unfold Thread.is_alive in Hd. by destruct (Thread.st th).
Qed.

Lemma ended_worker_end i o s :
  all_ended (Run.threads s) = true → worker_end i o s = s.
Proof.
  intros Hall. unfold worker_end.
  destruct (in_flight i s) as [[[th w] action]|] eqn:Hf; [|done].
  apply in_flight_Some in Hf as (Hi & _ & Hal).
  pose proof (ended_thread _ _ _ Hall Hi). congruence.
Qed.

Lemma step_summary_inv E a s ev : summary_inv s → summary_inv (step E a s ev).
Proof.
  unfold summary_inv. intros Hinv. destruct ev as [t| | |j k|j o]; simpl.
  - done.
  - unfold main_step. destruct (Run.pc s) eqn:Hpc.
    + by destruct (Run.now s <? Run.end_time s).
    + by destruct (first_dead (Run.threads s)).
    + destruct (wake <=? Run.now s); simpl; [|by rewrite Hpc].
      by rewrite summaries_app, Hinv.
    + destruct (all_ended (Run.threads s)) eqn:Hall; [|by rewrite Hpc].
      destruct (teardown E a _) as [l [e|[]]] eqn:Ht;
        apply teardown_summaries in Ht; simpl in *.
      * by rewrite !summaries_app, Hinv, summaries_joins, Ht.
      * by rewrite !summaries_app, Hinv, summaries_joins, Ht.
    + by rewrite Hpc.
    + by rewrite Hpc.
  - unfold interrupt. destruct (Run.pc s) eqn:Hpc; simpl;
      try (by rewrite summaries_app, Hinv); try done.
    + by rewrite Hpc.
    + by rewrite Hpc.
  - destruct (Run.pc s) eqn:Hpc;
      try (destruct (worker_begin_main j k s) as (-> & -> & _); by rewrite Hpc).
    destruct Hinv as [Hs Hall].
    rewrite ended_worker_begin by done. by rewrite Hpc.
  - destruct (Run.pc s) eqn:Hpc;
      try (destruct (worker_end_main j o s) as (-> & -> & _); by rewrite Hpc).
    destruct Hinv as [Hs Hall].
    rewrite ended_worker_end by done. by rewrite Hpc.
Qed.

Lemma exec_summary_inv E a evs : ∀ s,
  summary_inv s → summary_inv (exec E a s evs).
Proof.
  induction evs as [|ev evs IH]; intros s Hinv; [done|].
  apply IH. by apply step_summary_inv.
Qed.





(** ** The port flags *)

(** [main] never reads [args.port], [args.system_port] and
    [args.http_port]. *)
Lemma main_ignores_port_flags E args port system_port http_port now evs :
  main E {| Args.host := Args.host args; Args.port := port;
            Args.system_port := system_port; Args.http_port := http_port;
            Args.seed := Args.seed args; Args.runtime := Args.runtime args;
            Args.complexity := Args.complexity args;
            Args.scenario := Args.scenario args; Args.threads := Args.threads args;
            Args.naughty_identifiers := Args.naughty_identifiers args;
            Args.databases := Args.databases args |} now evs
  = main E args now evs.
Proof. reflexivity. Qed.

(** C9 fails on the code.  With [--port 7000 --system-port 7001
    --http-port 7002], and with any other values of the three flags,
    the connections of [main] and [run] and the worker thread go to the
    ports 6877 and 6875 of the dictionary of lines 362-368. *)
Theorem main_connects_to_fixed_ports :
  ports_used (main sample_env (sample_args 7000 7001 7002) 0 []).1
  = [6877; 6877; 6875; 6875; 6875]
  ∧ ∀ port system_port http_port,
      ports_used (main sample_env (sample_args port system_port http_port) 0 []).1
      = [6877; 6877; 6875; 6875; 6875].
Proof. split; [|intros]; vm_compute; reflexivity. Qed.

(** * Further properties of [run] and [main] *)

(** ** Thread count and early failures *)


Lemma bind_fail {A B} (m : M A) (k : A → M B) (l : list Effect) (e : Exn) :
  m = (l, inl e) → m ≫= k = (l, inl e).
Proof. by intros ->. Qed.









(** ** Scenarios that need a composition *)




Lemma thread_starts_cons_other (e : Effect) (l : list Effect) :
  thread_starts [e] = [] → thread_starts (e :: l) = thread_starts l.
Proof.
  intros He. change (e :: l) with ([e] ++ l)%list.
  by rewrite thread_starts_app, He.
Qed.




(** ** The population *)

(** X7.  Under the regression and the rename scenario the population is
    the worker slots and nothing else: as many workers as [range] of the
    thread count has numbers (none for a negative count), none of them a
    system worker, run by the threads "worker_0", "worker_1", ... in this
    order, which are all the threads [run] has started. *)
Theorem plain_population E a now l p :
  populate E a now = (l, inr p) →
  scenario a = Regression ∨ scenario a = Rename →
  length (Population.workers p) = Z.to_nat (effective_threads E a)
  ∧ Forall (λ w, Worker.system w = false) (Population.workers p)
  ∧ Thread.name <$> Population.threads p
    = (λ i, "worker_" +:+ pretty i) <$> range (effective_threads E a)
  ∧ thread_starts l = Thread.name <$> Population.threads p.
Proof.
  intros (lb & l1 & l2 & acc & Hb & Hloop & Hd & -> & _)%populate_inr Hsc.
  pose proof (bootstrap_starts E a (range (num_databases a))) as Hbs.
  rewrite Hb in Hbs. simpl in Hbs.
  apply worker_loop_inr in Hloop as (ws & ths & -> & Hlen & _ & Hsys & Hst & Hn & _).
  apply scenario_dispatch_inr in Hd.
  assert (Population.workers p = ws ∧ Population.threads p = ths ∧ l2 = [])
    as (-> & -> & ->).
  { destruct Hsc as [Hsc | Hsc]; rewrite Hsc in Hd;
      by destruct Hd as [[= <- <-] ->]. }
  split; [by rewrite Hlen; unfold range; rewrite length_seq|].
  split; [done|]. split; [done|].
  rewrite !thread_starts_cons_other by reflexivity.
  by rewrite !thread_starts_app, Hbs, Hst, app_nil_r.
Qed.

Lemma plain_population_witness :
  ∃ l p,
    populate sample_env (sample_run 3 Rename) 0 = (l, inr p)
    ∧ length (Population.workers p) = 3%nat
    ∧ thread_starts l = ["worker_0"; "worker_1"; "worker_2"].
Proof.
  destruct (populate sample_env (sample_run 3 Rename) 0) as [l [e|p]] eqn:H.
  - exfalso. vm_compute in H. discriminate.
  - exists l, p. split; [reflexivity|].
    destruct (plain_population _ _ _ _ _ H (or_intror eq_refl))
      as (Hlen & _ & Hn & Hst).
    split; [exact Hlen|]. rewrite Hst, Hn. reflexivity.
Defined.

Lemma paired_snoc a et acc w th :
  paired a et acc →
  Thread.target th = length acc.1 →
  Thread.host th = host a →
  Worker.end_time w = et →
  Thread.user th = (if Worker.system w then "mz_system" else "materialize") →
  ports a !! (if Worker.system w then "mz_system" else "materialized")
  = Some (Thread.port th) →
  paired a et ((acc.1 ++ [w])%list, (acc.2 ++ [th])%list).
Proof.
  intros [Hlen Hall] Ht Hh He Hu Hp. split; simpl.
  - rewrite !length_app. simpl. lia.
  - intros i th' Hi.
    destruct (decide (i < length acc.2)%nat) as [Hlt|Hge].
    + rewrite lookup_app_l in Hi by done.
      destruct (Hall i th' Hi) as (? & ? & w' & Hw' & ?).
      split; [done|]. split; [done|]. exists w'.
      by rewrite lookup_app_l by lia.
    + rewrite lookup_app_r in Hi by lia.
      destruct (i - length acc.2)%nat as [|k] eqn:Hk; [|by destruct k].
      injection Hi as <-.
      assert (i = length acc.1) as -> by lia.
      split; [done|]. split; [done|]. exists w.
      by rewrite lookup_app_r, Nat.sub_diag by lia.
Qed.

Lemma worker_loop_paired E a et xs : ∀ acc l acc',
  for_each (worker_slot E a 2 et) acc xs = (l, inr acc') →
  paired a et acc → paired a et acc'.
Proof.
  induction xs as [|x xs IH]; intros acc l acc'; simpl.
  - by intros [= <- <-].
  - intros (l1 & acc1 & l2 & H1 & H2 & ->)%bind_inr Hacc.
    apply (IH _ _ _ H2).
    apply worker_slot_inr in H1
      as (w & port & -> & Hp & _ & (_ & _ & He & _) & Hsys).
    apply paired_snoc; try done; simpl; by rewrite Hsys.
Qed.

(** X8.  When the construction comes through, [threads] and [workers]
    are in step: there are as many threads as workers, and thread number
    [i] runs worker number [i] against the host of the run; that worker
    holds the deadline of the run; the thread of a system worker
    connects as [mz_system] to the [mz_system] port, the thread of any
    other worker as [materialize] to the [materialized] port. *)
Theorem threads_match_workers E a now l p :
  populate E a now = (l, inr p) →
  length (Population.workers p) = length (Population.threads p)
  ∧ ∀ i th, Population.threads p !! i = Some th →
      Thread.target th = i
      ∧ Thread.host th = host a
      ∧ ∃ w, Population.workers p !! i = Some w
          ∧ Worker.end_time w = Population.end_time p
          ∧ Thread.user th = (if Worker.system w then "mz_system" else "materialize")
          ∧ ports a !! (if Worker.system w then "mz_system" else "materialized")
            = Some (Thread.port th).
Proof.
  intros (lb & l1 & l2 & acc & _ & Hloop & Hd & _ & -> & _)%populate_inr.
  change (paired a (now + runtime a * hz E)
            (Population.workers p, Population.threads p)).
  assert (paired a (now + runtime a * hz E) acc) as Hacc.
  { apply (worker_loop_paired _ _ _ _ _ _ _ Hloop). split; [done|]. by intros i th. }
  apply scenario_dispatch_inr in Hd.
  destruct (scenario a).
  - by destruct Hd as [<- _].
  - destruct Hd as (port & Hp & [= -> ->] & _). by apply paired_snoc.
  - destruct Hd as (port & Hp & [= -> ->] & _). by apply paired_snoc.
  - by destruct Hd as [<- _].
  - destruct Hd as (port & Hp & [= -> ->] & _). by apply paired_snoc.
  - done.
Qed.

Lemma threads_match_workers_witness :
  ∃ l p,
    populate sample_env (sample_run 2 Cancel) 0 = (l, inr p)
    ∧ length (Population.workers p) = length (Population.threads p)
    ∧ Thread.user <$> Population.threads p
      = ["materialize"; "materialize"; "mz_system"].
Proof.
  destruct (populate sample_env (sample_run 2 Cancel) 0) as [l [e|p]] eqn:H.
  - exfalso. vm_compute in H. discriminate.
  - exists l, p. split; [reflexivity|].
    destruct (threads_match_workers _ _ _ _ _ H) as [Hlen _].
    split; [exact Hlen|]. vm_compute in H. by injection H as _ <-.
Defined.

(** ** From the joins to the return *)

Lemma actions_app (l1 l2 : list Effect) :
  actions (l1 ++ l2) = (actions l1 ++ actions l2)%list.
Proof. apply omap_app. Qed.

Lemma actions_cons (e : Effect) (l : list Effect) :
  actions (e :: l) = (actions [e] ++ actions l)%list.
Proof. change (e :: l) with ([e] ++ l)%list. apply actions_app. Qed.

Lemma actions_joins (names : list string) :
  actions (ThreadJoin <$> names) = ThreadJoin <$> names.
Proof.
  induction names as [|n names IH]; [done|].
  rewrite fmap_cons.
  change (ThreadJoin n :: (ThreadJoin <$> names))
    with ([ThreadJoin n] ++ (ThreadJoin <$> names))%list.
  by rewrite actions_app, IH.
Qed.

(** Teardown, when the port is there, comes through: one connection,
    the drop of every database in order, the close. *)
Lemma teardown_actions E a s :
  match ports a !! "materialized" with
  | Some port =>
      ∃ l, teardown E a s = (l, inr tt)
           ∧ actions l
             = (Connect (host a) port "materialize" None
                :: (DatabaseDrop <$> Run.databases s) ++ [Close])%list
  | None => teardown E a s = ([], inl (KeyError "materialized"))
  end.
Proof.
  unfold teardown, getitem.
  destruct (ports a !! "materialized") as [port|]; [|done].
  match goal with
  | |- context [for_each ?body ?acc0 (map_to_list ?m)] =>
      assert (∃ l acc', for_each body acc0 (map_to_list m) = (l, inr acc'))
        as (le & [] & He) by (apply for_each_ok; intros [] x; by eexists _, _);
      pose proof (for_each_effects (λ e, actions [e] = []) body (map_to_list m)
                    (λ _ _, ltac:(by repeat constructor)) acc0) as Hqe;
      rewrite He in Hqe; rewrite He
  end.
  match goal with
  | |- context [for_each ?body ?acc0 (Run.databases s)] =>
      assert (∀ xs, ∃ l, for_each body acc0 xs = (l, inr tt)
                         ∧ actions l = DatabaseDrop <$> xs) as Hloop
  end.
  { induction xs as [|x xs (l & Hl & Ha)]; [by eexists|].
    cbn [for_each]. erewrite bind_ok by reflexivity. cbv beta. rewrite Hl.
    eexists. split; [reflexivity|].
    rewrite fmap_cons, <- Ha. reflexivity. }
  destruct (Hloop (Run.databases s)) as (ld & Hd & Had). rewrite Hd.
  assert (actions le = []) as Hae.
  { cbn [fst] in Hqe. clear He. induction Hqe as [|e le He _ IH]; [done|].
    change (e :: le) with ([e] ++ le)%list. by rewrite actions_app, He, IH. }
  simpl. eexists. split; [reflexivity|].
  rewrite (actions_cons (Connect _ _ _ _)), actions_app, (actions_cons Close),
    (actions_cons (Print (Summary _ _))), (actions_cons (Print (Text _))),
    Had, Hae.
  reflexivity.
Qed.

Lemma names_set_st (threads : list Thread.t) (i : nat) (th : Thread.t)
    (st : Thread.state) :
  threads !! i = Some th →
  Thread.name <$> <[i := Thread.set_st st th]> threads = Thread.name <$> threads.
Proof.
  intros Hi. rewrite list_fmap_insert. simpl.
  apply list_insert_id. by rewrite list_lookup_fmap, Hi.
Qed.

(** No step changes the names of the threads or the list of databases. *)
Lemma step_static E a s ev :
  Thread.name <$> Run.threads (step E a s ev) = Thread.name <$> Run.threads s
  ∧ Run.databases (step E a s ev) = Run.databases s.
Proof.
  destruct ev as [t| | |j k|j o]; simpl.
  - done.
  - unfold main_step. repeat case_match; done.
  - unfold interrupt. by destruct (Run.pc s).
  - unfold worker_begin.
    destruct (Run.threads s !! j) as [th|] eqn:Hj; [|done].
    repeat case_match; try done; simpl; by rewrite names_set_st.
  - unfold worker_end.
    destruct (in_flight j s) as [[[th w] action]|] eqn:Hf; [|done].
    apply in_flight_Some in Hf as (Hj & _ & _).
    destruct o; simpl; by rewrite names_set_st.
Qed.

Lemma step_monitor_inv E a l0 s ev :
  monitor_inv a l0 s → monitor_inv a l0 (step E a s ev).
Proof.
  intros (l1 & Heff & Hinv). unfold monitor_inv.
  destruct (step_static E a s ev) as [Hnames Hdbs].
  destruct ev as [t| | |j k|j o].
  - simpl in *. by exists l1.
  - cbn [step] in *. unfold main_step in *. destruct (Run.pc s) eqn:Hpc.
    + exists l1. by destruct (Run.now s <? Run.end_time s).
    + exists l1. destruct (first_dead (Run.threads s)); simpl;
        (split; [done|]); [by left|done].
    + destruct (wake <=? Run.now s); simpl.
      * eexists. rewrite Heff, <- app_assoc. split; [reflexivity|].
        by rewrite actions_app, Hinv.
      * exists l1. by rewrite Hpc.
    + destruct (all_ended (Run.threads s)) eqn:Hall; [|exists l1; by rewrite Hpc].
      pose proof (teardown_actions E a
        (Run.add_effects (ThreadJoin ∘ Thread.name <$> Run.threads s) s)) as Ht.
      destruct (ports a !! "materialized") as [port|] eqn:Hp.
      * destruct Ht as (lt & -> & Hat). simpl.
        exists (l1 ++ (ThreadJoin ∘ Thread.name <$> Run.threads s) ++ lt)%list.
        rewrite Heff, <- !app_assoc. split; [reflexivity|].
        exists port. split; [done|].
        rewrite !actions_app, Hinv, Hat, list_fmap_compose, actions_joins.
        reflexivity.
      * rewrite Ht. simpl.
        exists (l1 ++ (ThreadJoin ∘ Thread.name <$> Run.threads s))%list.
        rewrite Heff, <- !app_assoc, app_nil_r. split; [reflexivity|].
        right. by rewrite actions_app, Hinv, list_fmap_compose, actions_joins.
    + exists l1. by rewrite Hpc.
    + exists l1. by rewrite Hpc.
  - cbn [step] in *. unfold interrupt in *. destruct (Run.pc s) eqn:Hpc; simpl;
      try (eexists; rewrite Heff, <- app_assoc; split; [reflexivity|];
           by rewrite actions_app, Hinv);
      try (exists l1; split; [done|]; by rewrite ?Hpc).
    exists l1. split; [done|]. by left.
  - cbn [step] in *.
    destruct (worker_begin_main j k s) as (Hpc & He & _).
    exists l1. rewrite He, Hpc, Hnames, Hdbs. done.
  - cbn [step] in *.
    destruct (worker_end_main j o s) as (Hpc & He & _).
    exists l1. rewrite He, Hpc, Hnames, Hdbs. done.
Qed.

Lemma exec_monitor_inv E a l0 evs : ∀ s,
  monitor_inv a l0 s → monitor_inv a l0 (exec E a s evs).
Proof.
  induction evs as [|ev evs IH]; intros s Hinv; [done|].
  apply IH. by apply step_monitor_inv.
Qed.

Lemma exec_static E a evs : ∀ s,
  Thread.name <$> Run.threads (exec E a s evs) = Thread.name <$> Run.threads s
  ∧ Run.databases (exec E a s evs) = Run.databases s.
Proof.
  induction evs as [|ev evs IH]; intros s; [done|].
  destruct (IH (step E a s ev)) as [H1 H2].
  destruct (step_static E a s ev) as [H3 H4].
  unfold exec in *. simpl. by rewrite H1, H2, H3, H4.
Qed.

(** ** What the construction did *)

Lemma omap_cons_None {A B} (f : A → option B) (e : A) (l : list A) :
  f e = None → omap f (e :: l) = omap f l.
Proof. intros He. simpl. by rewrite He. Qed.

Lemma omap_cons_Some {A B} (f : A → option B) (e : A) (l : list A) (y : B) :
  f e = Some y → omap f (e :: l) = y :: omap f l.
Proof. intros He. simpl. by rewrite He. Qed.

Lemma omap_empty {A B} (f : A → option B) : omap f (@nil A) = [].
Proof. reflexivity. Qed.

Lemma omap_none {A B} (f : A → option B) (l : list A) :
  Forall (λ e, f e = None) l → omap f l = [].
Proof.
  induction 1 as [|e l He _ IH]; [done|]. by rewrite omap_cons_None.
Qed.

(** Simplify an observer, an [omap], over a list built from effects that
    are known, lists appended and lists that hold nothing for it. *)
Ltac observe :=
  repeat first
    [ rewrite omap_app
    | rewrite omap_cons_None by reflexivity
    | erewrite omap_cons_Some by reflexivity
    | rewrite length_app
    | rewrite omap_empty ].

(** The bootstrap creates every database and then its relations, in the
    order of [databases], over a connection of its own that it closes;
    with the system connection it opens and closes one connection more
    than there are databases. *)
Lemma bootstrap_observed E a dbs lb :
  bootstrap E a dbs = (lb, inr tt) →
  databases_created lb = dbs
  ∧ relations_created lb = dbs
  ∧ connections_opened lb = S (length dbs)
  ∧ connections_closed lb = S (length dbs).
Proof.
  unfold bootstrap, alter_system, grant_default.
  match goal with
  | |- context [for_each ?body ?acc0 dbs] =>
      assert (∀ xs l, for_each body acc0 xs = (l, inr tt) →
                databases_created l = xs ∧ relations_created l = xs
                ∧ connections_opened l = length xs
                ∧ connections_closed l = length xs) as Hloop
  end.
  { induction xs as [|x xs IH]; intros l.
    - by intros [= <-].
    - cbn [for_each]. intros (l1 & [] & l2 & H1 & H2 & ->)%bind_inr.
      destruct (IH _ H2) as (IH1 & IH2 & IH3 & IH4).
      unfold getitem in H1. destruct (ports a !! "materialized"); [|done].
      simpl in H1. injection H1 as <-.
      unfold databases_created, relations_created, connections_opened,
        connections_closed in *.
      observe. rewrite IH1, IH2, IH3, IH4. done. }
  destruct (for_each _ tt dbs) as [ll [e|[]]] eqn:Hll.
  { unfold getitem. destruct (ports a !! "mz_system"); [|done].
    by destruct dbs. }
  destruct (Hloop _ _ Hll) as (H1 & H2 & H3 & H4).
  unfold getitem. destruct (ports a !! "mz_system"); [|done].
  destruct dbs as [|d dbs]; [done|].
  simpl. intros [= <-].
  unfold databases_created, relations_created, connections_opened,
    connections_closed in *.
  observe. rewrite ?app_nil_r. cbn [length]. rewrite H1, H2, H3, H4.
  simpl. repeat split; lia.
Qed.

Lemma quiet_construction (P : Effect → Prop) E a r et :
  (∀ t, P (Print (Text t))) → (∀ n h p u, P (ThreadStart n h p u)) →
  ∀ acc xs,
    Forall P (for_each (worker_slot E a r et) acc xs).1
    ∧ Forall P (scenario_dispatch a r et acc).1.
Proof.
  intros HP HT acc xs. split.
  - apply for_each_effects. intros. by apply worker_slot_effects.
  - by apply scenario_dispatch_effects.
Qed.

(** What [populate] has done when it comes through: created every
    database and its relations, in order; opened and closed as many
    connections as there are databases and one more; started the
    threads of the population, in order; dropped and joined nothing. *)
Lemma populate_observed E a now l p :
  populate E a now = (l, inr p) →
  databases_created l = Population.databases p
  ∧ relations_created l = Population.databases p
  ∧ databases_dropped l = []
  ∧ connections_opened l = S (length (Population.databases p))
  ∧ connections_closed l = S (length (Population.databases p))
  ∧ thread_starts l = Thread.name <$> Population.threads p.
Proof.
  intros Hpop.
  assert (Forall (λ e, databases_dropped [e] = []) (populate E a now).1) as Hdrop
    by (apply populate_effects; done).
  rewrite Hpop in Hdrop. cbn [fst] in Hdrop.
  pose proof Hpop as (lb & l1 & l2 & acc & Hb & Hloop & Hd & -> & _ & -> & _)%populate_inr.
  destruct (bootstrap_observed _ _ _ _ Hb) as (Hb1 & Hb2 & Hb3 & Hb4).
  pose proof (bootstrap_starts E a (range (num_databases a))) as Hbs.
  rewrite Hb in Hbs. cbn [fst] in Hbs.
  assert (∀ f : Effect → option Effect,
            (∀ t, f (Print (Text t)) = None) →
            (∀ n h p u, f (ThreadStart n h p u) = None) →
            omap f l1 = [] ∧ omap f l2 = []) as Hq.
  { intros f Hf1 Hf2.
    destruct (quiet_construction (λ e, f e = None) E a 2
                (now + runtime a * hz E) Hf1 Hf2 ([], [])
                (range (effective_threads E a))) as [Hq1 _].
    destruct (quiet_construction (λ e, f e = None) E a 2
                (now + runtime a * hz E) Hf1 Hf2 acc []) as [_ Hq2].
    rewrite Hloop in Hq1. rewrite Hd in Hq2. split; by apply omap_none. }
  assert (∀ f : Effect → option nat,
            (∀ t, f (Print (Text t)) = None) →
            (∀ n h p u, f (ThreadStart n h p u) = None) →
            omap f l1 = [] ∧ omap f l2 = []) as Hqn.
  { intros f Hf1 Hf2.
    destruct (quiet_construction (λ e, f e = None) E a 2
                (now + runtime a * hz E) Hf1 Hf2 ([], [])
                (range (effective_threads E a))) as [Hq1 _].
    destruct (quiet_construction (λ e, f e = None) E a 2
                (now + runtime a * hz E) Hf1 Hf2 acc []) as [_ Hq2].
    rewrite Hloop in Hq1. rewrite Hd in Hq2. split; by apply omap_none. }
  assert (thread_starts l1 ++ thread_starts l2
          = Thread.name <$> Population.threads p)%list as Hst.
  { apply worker_loop_inr in Hloop as (ws & ths & -> & _ & _ & _ & Hst & _).
    apply scenario_dispatch_inr in Hd. simpl in Hd.
    destruct (scenario a); try done;
      try (destruct Hd as [[= _ ->] ->]; by rewrite Hst, app_nil_r);
      destruct Hd as (port & _ & [= _ ->] & Hl2);
      (lazymatch type of Hl2 with
       | _ ∧ _ => destruct Hl2 as [-> _]
       | _ => rewrite Hl2
       end);
      by rewrite fmap_app, Hst. }
  split; [|split; [|split; [|split; [|split]]]].
  - unfold databases_created in *. observe.
    match goal with
    | |- context [omap ?f l1] => destruct (Hqn f) as [-> ->]; [done|done|]
    end.
    by rewrite Hb1, !app_nil_r.
  - unfold relations_created in *. observe.
    match goal with
    | |- context [omap ?f l1] => destruct (Hqn f) as [-> ->]; [done|done|]
    end.
    by rewrite Hb2, !app_nil_r.
  - apply omap_none. eapply Forall_impl; [|exact Hdrop].
    intros e He. unfold databases_dropped in He. simpl in He.
    by destruct e.
  - unfold connections_opened in *. observe.
    match goal with
    | |- context [omap ?f l1] => destruct (Hq f) as [-> ->]; [done|done|]
    end.
    rewrite Hb3. simpl. lia.
  - unfold connections_closed in *. observe.
    match goal with
    | |- context [omap ?f l1] => destruct (Hq f) as [-> ->]; [done|done|]
    end.
    rewrite Hb4. simpl. lia.
  - rewrite !thread_starts_cons_other by reflexivity.
    by rewrite !thread_starts_app, Hbs, Hst.
Qed.

(** ** Runs that return and runs that do not *)

Lemma omap_actions {B} (f : Effect → option B) (l : list Effect) :
  (∀ x, f (Print x) = None) → omap f (actions l) = omap f l.
Proof.
  intros Hf. induction l as [|e l IH]; [done|].
  assert (actions (e :: l) = actions l ∧ f e = None
          ∨ actions (e :: l) = e :: actions l) as [[-> He] | ->].
  { destruct e; [left|right..]; try reflexivity.
    split; [reflexivity|apply Hf]. }
  - by rewrite (omap_cons_None f).
  - destruct (f e) eqn:He.
    + by rewrite !(omap_cons_Some _ _ _ _ He), IH.
    + by rewrite !(omap_cons_None _ _ _ He), IH.
Qed.

Lemma omap_fmap_Some {A B C} (f : B → option C) (g : A → B) (h : A → C)
    (xs : list A) :
  (∀ x, f (g x) = Some (h x)) → omap f (g <$> xs) = h <$> xs.
Proof.
  intros Hfg. induction xs as [|x xs IH]; [done|].
  rewrite !fmap_cons. erewrite omap_cons_Some by apply Hfg. by rewrite IH.
Qed.

Lemma omap_fmap_None {A B C} (f : B → option C) (g : A → B) (xs : list A) :
  (∀ x, f (g x) = None) → omap f (g <$> xs) = [].
Proof.
  intros Hfg. apply omap_none, Forall_fmap, Forall_true. intros x. apply Hfg.
Qed.

(** A run that got past the construction: the state the schedule leads
    to, seen from the construction. *)
Lemma run_monitored E a now evs l s :
  run E a now evs = (l, inr s) →
  ∃ l0 p,
    populate E a now = (l0, inr p)
    ∧ l = Run.effects s
    ∧ monitor_inv a l0 s
    ∧ summary_inv s
    ∧ Thread.name <$> Run.threads s = Thread.name <$> Population.threads p
    ∧ Run.databases s = Population.databases p.
Proof.
  unfold run. pose proof (populate_summaries E a now) as Hquiet.
  destruct (populate E a now) as [l0 [e|p]] eqn:Hp; [done|].
  intros [= <- <-]. exists l0, p. split; [done|]. split; [done|].
  split; [|split].
  - apply exec_monitor_inv. exists []. by rewrite app_nil_r.
  - by apply exec_summary_inv.
  - apply (exec_static E a evs (Run.start l0 p now)).
Qed.

(** What the main thread did after the construction, when [run] has
    returned. *)
Lemma returned_actions E a now evs l s :
  run E a now evs = (l, inr s) →
  Run.pc s = PcReturned →
  ∃ l0 l1 p port,
    populate E a now = (l0, inr p)
    ∧ l = (l0 ++ l1)%list
    ∧ all_ended (Run.threads s) = true
    ∧ Thread.name <$> Run.threads s = Thread.name <$> Population.threads p
    ∧ actions l1
      = ((ThreadJoin <$> (Thread.name <$> Population.threads p))
         ++ Connect (host a) port "materialize" None
         :: (DatabaseDrop <$> Population.databases p) ++ [Close])%list.
Proof.
  intros (l0 & p & Hp & -> & (l1 & Heff & Hinv) & Hsum & Hn & Hd)%run_monitored Hpc.
  unfold summary_inv in Hsum. rewrite Hpc in Hinv, Hsum.
  destruct Hinv as (port & _ & Hact). destruct Hsum as [_ Hall].
  exists l0, l1, p, port. by rewrite <- Hn, <- Hd.
Qed.

(** X9.  Provisioning and teardown are a round trip: when [run] returns,
    it has created the databases 0, 1, ... up to the database count,
    created the relations of each, and dropped each of them, all in this
    order, and no other. *)
Theorem databases_created_are_dropped E a now evs l s :
  run E a now evs = (l, inr s) →
  Run.pc s = PcReturned →
  databases_created l = range (num_databases a)
  ∧ relations_created l = range (num_databases a)
  ∧ databases_dropped l = range (num_databases a).
Proof.
  intros Hrun Hpc.
  destruct (returned_actions _ _ _ _ _ _ Hrun Hpc)
    as (l0 & l1 & p & port & Hp & -> & _ & _ & Hact).
  destruct (populate_observed _ _ _ _ _ Hp) as (Hc & Hr & Hd & _).
  apply populate_inr in Hp as (_ & _ & _ & _ & _ & _ & _ & _ & _ & Hdbs & _).
  rewrite Hdbs in *.
  unfold databases_created, relations_created, databases_dropped in *.
  rewrite !omap_app, Hc, Hr, Hd.
  rewrite <- !(omap_actions _ l1) by done. rewrite Hact. observe.
  rewrite !omap_fmap_None by done.
  rewrite (omap_fmap_Some _ DatabaseDrop id) by done.
  by rewrite list_fmap_id, !app_nil_r.
Qed.

Lemma databases_created_are_dropped_witness :
  ∃ l s,
    run sample_env (sample_run 1 Regression) 0
      [MainStep; MainStep; Tick 10; MainStep; MainStep; WorkerBegin 0 0; MainStep]
    = (l, inr s)
    ∧ databases_created l = [0; 1]%nat
    ∧ databases_dropped l = [0; 1]%nat.
Proof.
  destruct (run sample_env (sample_run 1 Regression) 0
      [MainStep; MainStep; Tick 10; MainStep; MainStep; WorkerBegin 0 0; MainStep])
    as [l [e|s]] eqn:H.
  - exfalso. vm_compute in H. discriminate.
  - exists l, s. split; [reflexivity|].
    assert (Run.pc s = PcReturned) as Hpc.
    { vm_compute in H. by injection H as _ <-. }
    destruct (databases_created_are_dropped _ _ _ _ _ _ H Hpc) as (Hc & _ & Hd).
    by rewrite Hc, Hd.
Defined.

(** X10.  When [run] returns, every thread it has started has come to an
    end and has been joined: the joins are those of the started threads,
    each once and in the order of the starts. *)
Theorem started_threads_are_joined E a now evs l s :
  run E a now evs = (l, inr s) →
  Run.pc s = PcReturned →
  thread_joins l = thread_starts l
  ∧ thread_starts l = Thread.name <$> Run.threads s
  ∧ all_ended (Run.threads s) = true.
Proof.
  intros Hrun Hpc.
  destruct (returned_actions _ _ _ _ _ _ Hrun Hpc)
    as (l0 & l1 & p & port & Hp & -> & Hall & Hn & Hact).
  destruct (populate_observed _ _ _ _ _ Hp) as (_ & _ & _ & _ & _ & Hst).
  pose proof (populate_joins E a now) as Hj. rewrite Hp in Hj. cbn [fst] in Hj.
  assert (thread_joins l1 = Thread.name <$> Population.threads p
          ∧ thread_starts l1 = []) as [Hj1 Hs1].
  { unfold thread_joins, thread_starts.
    rewrite <- !(omap_actions _ l1) by done. rewrite Hact. observe.
    rewrite (omap_fmap_Some _ ThreadJoin id) by done.
    rewrite !omap_fmap_None by done.
    by rewrite list_fmap_id, !app_nil_r. }
  rewrite thread_joins_app, thread_starts_app, Hj, Hj1, Hs1, Hst, Hn.
  by rewrite app_nil_r.
Qed.

Lemma started_threads_are_joined_witness :
  ∃ l s,
    run sample_env (sample_run 2 Cancel) 0
      [MainStep; MainStep; Tick 10; MainStep; MainStep; WorkerBegin 0 0;
       WorkerBegin 1 0; WorkerBegin 2 0; MainStep]
    = (l, inr s)
    ∧ thread_joins l = ["worker_0"; "worker_1"; "cancel"].
Proof.
  destruct (run sample_env (sample_run 2 Cancel) 0
      [MainStep; MainStep; Tick 10; MainStep; MainStep; WorkerBegin 0 0;
       WorkerBegin 1 0; WorkerBegin 2 0; MainStep])
    as [l [e|s]] eqn:H.
  - exfalso. vm_compute in H. discriminate.
  - exists l, s. split; [reflexivity|].
    assert (Run.pc s = PcReturned) as Hpc.
    { vm_compute in H. by injection H as _ <-. }
    destruct (started_threads_are_joined _ _ _ _ _ _ H Hpc) as (Hj & Hst & _).
    rewrite Hj, Hst. vm_compute in H. by injection H as _ <-.
Defined.

(** X11.  When [run] returns, the main thread has closed every
    connection it has opened: the system connection, one connection for
    each database, and the connection of the teardown. *)
Theorem connections_are_closed E a now evs l s :
  run E a now evs = (l, inr s) →
  Run.pc s = PcReturned →
  connections_closed l = connections_opened l
  ∧ connections_opened l = S (S (length (range (num_databases a)))).
Proof.
  intros Hrun Hpc.
  destruct (returned_actions _ _ _ _ _ _ Hrun Hpc)
    as (l0 & l1 & p & port & Hp & -> & _ & _ & Hact).
  destruct (populate_observed _ _ _ _ _ Hp) as (_ & _ & _ & Ho & Hc & _).
  apply populate_inr in Hp as (_ & _ & _ & _ & _ & _ & _ & _ & _ & Hdbs & _).
  rewrite Hdbs in *.
  unfold connections_opened, connections_closed in *.
  rewrite !omap_app, !length_app, Ho, Hc.
  rewrite <- !(omap_actions _ l1) by done. rewrite Hact. observe.
  rewrite !omap_fmap_None by done. simpl. lia.
Qed.

Lemma connections_are_closed_witness :
  ∃ l s,
    run sample_env (sample_run 1 Regression) 0
      [MainStep; MainStep; Tick 10; MainStep; MainStep; WorkerBegin 0 0; MainStep]
    = (l, inr s)
    ∧ connections_opened l = 4%nat ∧ connections_closed l = 4%nat.
Proof.
  destruct (run sample_env (sample_run 1 Regression) 0
      [MainStep; MainStep; Tick 10; MainStep; MainStep; WorkerBegin 0 0; MainStep])
    as [l [e|s]] eqn:H.
  - exfalso. vm_compute in H. discriminate.
  - exists l, s. split; [reflexivity|].
    assert (Run.pc s = PcReturned) as Hpc.
    { vm_compute in H. by injection H as _ <-. }
    destruct (connections_are_closed _ _ _ _ _ _ H Hpc) as (Hc & Ho).
    by rewrite Hc, Ho.
Defined.



(** ** The report and the interrupt *)



(** X14.  A keyboard interrupt in the monitor loop is a graceful stop:
    it sets every deadline to the current time and takes [run] to the
    joins, without an exception.  From there, while a thread is alive
    the main thread waits; once all have ended, and with the
    [materialized] port known, it tears down and returns.  A second
    interrupt, at the joins, leaves [run] by [KeyboardInterrupt]. *)
Theorem interrupt_is_graceful E a s port :
  Run.pc s = PcTest ∨ Run.pc s = PcScan ∨ (∃ wake, Run.pc s = PcSleep wake) →
  ports a !! "materialized" = Some port →
  Run.pc (step E a s Interrupt) = PcJoin
  ∧ deadlines (step E a s Interrupt)
    = replicate (length (Run.workers s)) (Run.now s)
  ∧ Run.threads (step E a s Interrupt) = Run.threads s
  ∧ (all_ended (Run.threads s) = false →
     step E a (step E a s Interrupt) MainStep = step E a s Interrupt)
  ∧ (all_ended (Run.threads s) = true →
     Run.pc (step E a (step E a s Interrupt) MainStep) = PcReturned)
  ∧ Run.pc (step E a (step E a s Interrupt) Interrupt) = PcRaised KeyboardInterrupt.
Proof.
  intros Hpc Hport.
  assert (step E a s Interrupt
          = Run.set_pc PcJoin
              (force_deadlines
                 (Run.add_effects [Print (Text "Keyboard interrupt, exiting")] s)))
    as ->.
  { simpl. unfold interrupt.
    by destruct Hpc as [-> | [-> | [wake ->]]]. }
  split; [done|].
  split; [exact (force_deadlines_deadlines (Run.add_effects _ s))|].
  split; [done|].
  split; [|split].
  - intros Hall. simpl. unfold main_step. simpl. by rewrite Hall.
  - intros Hall. simpl. unfold main_step. simpl. rewrite Hall.
    match goal with
    | |- context [teardown E a ?s0] =>
        pose proof (teardown_actions E a s0) as Ht
    end.
    rewrite Hport in Ht. destruct Ht as (lt & -> & _). done.
  - done.
Qed.

Lemma interrupt_is_graceful_witness :
  ∃ l s,
    run sample_env (sample_run 1 Regression) 0 [MainStep; MainStep; Tick 3]
    = (l, inr s)
    ∧ Run.pc (step sample_env (sample_run 1 Regression) s Interrupt) = PcJoin
    ∧ deadlines (step sample_env (sample_run 1 Regression) s Interrupt) = [3].
Proof.
  destruct (run sample_env (sample_run 1 Regression) 0 [MainStep; MainStep; Tick 3])
    as [l [e|s]] eqn:H.
  - exfalso. vm_compute in H. discriminate.
  - exists l, s. split; [reflexivity|].
    assert (Run.pc s = PcSleep 10 ∧ Run.now s = 3
            ∧ length (Run.workers s) = 1%nat) as (Hpc & Hnow & Hlen).
    { vm_compute in H. by injection H as _ <-. }
    destruct (interrupt_is_graceful sample_env (sample_run 1 Regression) s 6875)
      as (Hj & Hd & _).
    + right. right. by exists 10.
    + reflexivity.
    + split; [exact Hj|]. by rewrite Hd, Hnow, Hlen.
Defined.

(** ** The error statistics *)

(** X15.  [num_failures], the number the failure percentage is computed
    from, is the sum over all workers of all the counts in the histogram
    of the worker. *)
Theorem num_failures_is_sum_of_counts (workers : list Worker.t) :
  histogram_total (aggregate workers)
  = sum_list_with (λ w, histogram_total (Worker.ignored_errors w)) workers.
Proof. apply aggregate_total. Qed.

Lemma merge_histogram_keys (agg h : gmap string (gmap string nat)) (error : string) :
  is_Some (merge_histogram agg h !! error)
  ↔ is_Some (agg !! error) ∨ is_Some (h !! error).
Proof.
  unfold merge_histogram. revert error.
  apply (map_fold_weak_ind (λ (r m : gmap string (gmap string nat)),
           ∀ e, is_Some (r !! e) ↔ is_Some (agg !! e) ∨ is_Some (m !! e))).
  - intros e. rewrite lookup_empty. split; [by left|].
    by intros [?|[? [=]]].
  - intros i x m r Hi IH e. destruct (decide (i = e)) as [->|Hne].
    + rewrite !lookup_insert_eq. split; [by right|done].
    + rewrite !lookup_insert_ne by done. apply IH.
Qed.

Lemma aggregate_keys (ws : list Worker.t) (error : string) :
  is_Some (aggregate ws !! error)
  ↔ ∃ w, w ∈ ws ∧ is_Some (Worker.ignored_errors w !! error).
Proof.
  unfold aggregate.
  enough (∀ agg,
    is_Some (foldl (λ acc w, merge_histogram acc (Worker.ignored_errors w)) agg ws
               !! error)
    ↔ is_Some (agg !! error)
      ∨ ∃ w, w ∈ ws ∧ is_Some (Worker.ignored_errors w !! error)) as H.
  { rewrite H, lookup_empty. split; [|by right].
    by intros [[? [=]]|?]. }
  induction ws as [|w ws IH]; intros agg; simpl.
  - split; [by left|]. intros [?|(w & Hw & _)]; [done|]. by apply elem_of_nil in Hw.
  - rewrite IH, merge_histogram_keys. split.
    + intros [[?|?]|(w' & ? & ?)]; [by left| |].
      * right. exists w. split; [apply list_elem_of_here|done].
      * right. exists w'. split; [by apply list_elem_of_further|done].
    + intros [?|(w' & [->|?]%elem_of_cons & ?)].
      * by left; left.
      * by left; right.
      * right. by exists w'.
Qed.

(** X16.  The breakdown that teardown prints has a line for an error
    kind exactly when some worker has that kind in its histogram, and a
    line shows for every operation class it lists the sum of the counts
    of all workers for that kind and class. *)
Theorem error_lines_cover_workers E a s l :
  teardown E a s = (l, inr tt) →
  ∀ error,
    ((∃ entries, Print (ErrorLine error entries) ∈ l)
     ↔ ∃ w, w ∈ Run.workers s ∧ is_Some (Worker.ignored_errors w !! error))
    ∧ ∀ entries action_class n,
        Print (ErrorLine error entries) ∈ l →
        (action_class, n) ∈ entries →
        n = sum_list_with
              (λ w, count_of (Worker.ignored_errors w) error action_class)
              (Run.workers s).
Proof.
  unfold teardown.
  match goal with
  | |- context [for_each ?body ?acc0 (map_to_list ?m)] =>
      assert (∀ xs, for_each body acc0 xs
                    = ((λ entry : string * gmap string nat,
                          Print (ErrorLine entry.1 (map_to_list entry.2))) <$> xs,
                       inr tt)) as Hlines
  end.
  { induction xs as [|x xs IH]; [done|].
    cbn [for_each]. erewrite bind_ok by reflexivity. cbv beta. by rewrite IH. }
  rewrite Hlines. clear Hlines.
  match goal with
  | |- context [for_each ?body ?acc0 (Run.databases s)] =>
      assert (∃ l acc', for_each body acc0 (Run.databases s) = (l, inr acc'))
        as (ld & [] & Hd) by (apply for_each_ok; intros [] x; by eexists _, _);
      pose proof (for_each_effects
                    (λ e, ∀ err en, e ≠ Print (ErrorLine err en)) body
                    (Run.databases s)
                    (λ _ _, ltac:(by repeat constructor)) acc0) as Hqd;
      rewrite Hd in Hqd; rewrite Hd
  end.
  cbn [fst] in Hqd. unfold getitem.
  destruct (ports a !! "materialized") as [port|]; [|done].
  simpl. intros [= <-] error.
  assert (∀ entries,
    Print (ErrorLine error entries)
      ∈ Connect (host a) port "materialize" None
        :: ld ++ Close
           :: Print (Summary (Run.num_queries s)
                (failed_percentage (histogram_total (aggregate (Run.workers s)))
                   (Run.num_queries s)))
           :: Print (Text "Error statistics:")
           :: ((λ entry : string * gmap string nat,
                  Print (ErrorLine entry.1 (map_to_list entry.2)))
                 <$> map_to_list (aggregate (Run.workers s)))
    ↔ ∃ counter, aggregate (Run.workers s) !! error = Some counter
                 ∧ entries = map_to_list counter) as Hin.
  { intros entries.
    rewrite elem_of_cons, elem_of_app, !elem_of_cons, list_elem_of_fmap.
    split.
    - intros [?|[Hld|[?|[?|[?|([e c] & [= -> ->] & Hec)]]]]]; try done.
      + rewrite Forall_forall in Hqd. apply list_elem_of_In in Hld.
        by destruct (Hqd _ Hld error entries).
      + apply elem_of_map_to_list in Hec. by exists c.
    - intros (c & Hc & ->). do 5 right. exists (error, c).
      split; [done|]. by apply elem_of_map_to_list. }
  split.
  - rewrite <- aggregate_keys. split.
    + intros (entries & (c & Hc & _)%Hin). by exists c.
    + intros [c Hc]. exists (map_to_list c). apply Hin. by exists c.
  - intros entries action_class n (c & Hc & ->)%Hin Hn.
    apply elem_of_map_to_list in Hn.
    pose proof (foldl_merge_count (Run.workers s) ∅ error action_class) as Hsum.
    rewrite count_of_empty in Hsum. fold (aggregate (Run.workers s)) in Hsum.
    unfold count_of at 1 in Hsum.
    rewrite (lookup_total_correct _ _ _ Hc), (lookup_total_correct _ _ _ Hn) in Hsum.
    exact Hsum.
Qed.

Lemma error_lines_cover_workers_witness :
  ∃ l0 s l,
    run sample_env (sample_run 1 Regression) 0
      [MainStep; MainStep; WorkerBegin 0 0; WorkerEnd 0 (IgnoredError "canceled")]
    = (l0, inr s)
    ∧ teardown sample_env (sample_run 1 Regression) s = (l, inr tt)
    ∧ Print (ErrorLine "canceled" [("SelectAction", 1%nat)]) ∈ l
    ∧ ∃ w, w ∈ Run.workers s
           ∧ is_Some (Worker.ignored_errors w !! "canceled").
Proof.
  destruct (run sample_env (sample_run 1 Regression) 0
      [MainStep; MainStep; WorkerBegin 0 0; WorkerEnd 0 (IgnoredError "canceled")])
    as [l0 [e|s]] eqn:H.
  - exfalso. vm_compute in H. discriminate.
  - destruct (teardown sample_env (sample_run 1 Regression) s) as [l [e|[]]] eqn:Ht.
    + exfalso. vm_compute in H. injection H as _ <-.
      vm_compute in Ht. discriminate.
    + exists l0, s, l. split; [reflexivity|]. split; [exact Ht|].
      assert (Print (ErrorLine "canceled" [("SelectAction", 1%nat)]) ∈ l) as Hin.
      { vm_compute in H. injection H as _ <-.
        vm_compute in Ht. injection Ht as <-.
        do 8 apply list_elem_of_further. apply list_elem_of_here. }
      split; [exact Hin|].
      apply (proj1 (error_lines_cover_workers _ _ _ _ Ht "canceled")).
      by eexists.
Defined.

(** ** The system parameters of [main] *)

(** X17.  Before anything else, and whatever the other arguments are,
    [main] opens a connection as [mz_system] to port 6877 of the host,
    sets every system parameter of [DEFAULT_SYSTEM_PARAMETERS], in
    order, and closes the connection. *)
Theorem main_sets_system_parameters_first E args now evs :
  ∃ rest,
    (main E args now evs).1
    = (Connect (Args.host args) 6877 "mz_system" (Some "materialize")
       :: ((λ kv : string * string,
              Execute ("ALTER SYSTEM SET " +:+ kv.1 +:+ " = '" +:+ kv.2 +:+ "'"))
             <$> DEFAULT_SYSTEM_PARAMETERS E)
       ++ Close :: rest)%list.
Proof.
  unfold main.
  match goal with
  | |- context [for_each ?body ?acc0 (DEFAULT_SYSTEM_PARAMETERS E)] =>
      assert (∀ xs, for_each body acc0 xs
                    = ((λ kv : string * string,
                          Execute ("ALTER SYSTEM SET " +:+ kv.1 +:+ " = '"
                                   +:+ kv.2 +:+ "'")) <$> xs,
                       inr tt)) as Hloop
  end.
  { induction xs as [|x xs IH]; [done|].
    cbn [for_each]. erewrite bind_ok by reflexivity. cbv beta. by rewrite IH. }
  rewrite Hloop.
  change (getitem main_ports "mz_system") with (mret (M := M) 6877).
  match goal with
  | |- context [Complexity_of_value ?v ≫= ?k] =>
      destruct (Complexity_of_value v ≫= k) as [l r]
  end.
  simpl. by eexists.
Qed.

(** ** The failure percentage *)


